(** * The handler-relocation scripts: Scanner, Extractor, Rewriter

    A shallow embedding of the three scripts
      - [extract_handlers.py]       (the Scanner),
      - [extract_full_handlers.py]  (the Extractor),
      - [update_message_router.py]  (the Rewriter),
    and the properties of them that the specification states.

    Text is a Rocq [string]; a character is one of the 256 values of
    [ascii], read as the code point of that number, so the character
    classes below are Python's on code points 0..255.  A file is the text
    that [read()] returns and the text that [write()] receives; a script
    that raises writes nothing, which the model renders as [Raise]. *)

From Stdlib Require Import ZArith Lia Ascii String.
From stdpp Require Import base list sorting gmap strings pretty.

Local Open Scope Z_scope.

(** ** Exceptions and results *)

Inductive exn := AttributeError | ValueError.

Inductive result (A : Type) :=
| Ok (a : A)
| Raise (e : exn).
Arguments Ok {A} a.
Arguments Raise {A} e.

#[global] Instance result_bind : MBind result := λ A B k r,
  match r with
  | Ok a => k a
  | Raise e => Raise e
  end.

#[global] Instance result_fmap : FMap result := λ A B f r,
  match r with
  | Ok a => Ok (f a)
  | Raise e => Raise e
  end.

Definition is_ok {A} (r : result A) : bool :=
  match r with Ok _ => true | Raise _ => false end.

(** ** Python's [str] operations used by the scripts *)

Module Py.

(** [str.isspace] on one character: the class of [strip()] and of the
    pattern [\s]. *)
Definition is_space (c : ascii) : bool :=
  let n := N_of_ascii c in
  ((9 <=? n) && (n <=? 13) || (28 <=? n) && (n <=? 32)
   || (n =? 133) || (n =? 160))%N.

(** The padding that [int()] accepts around a number: as [is_space], less
    the four separator characters 28..31. *)
Definition is_int_space (c : ascii) : bool :=
  let n := N_of_ascii c in
  ((9 <=? n) && (n <=? 13) || (n =? 32) || (n =? 133) || (n =? 160))%N.

(** The class of the pattern [\w]: alphanumeric characters and [_]. *)
Definition is_word (c : ascii) : bool :=
  let n := N_of_ascii c in
  ((48 <=? n) && (n <=? 57) || (65 <=? n) && (n <=? 90)
   || (97 <=? n) && (n <=? 122) || (n =? 95)
   || (n =? 170) || (n =? 178) || (n =? 179) || (n =? 181)
   || (n =? 185) || (n =? 186) || (188 <=? n) && (n <=? 190)
   || (192 <=? n) && (n <=? 214) || (216 <=? n) && (n <=? 246)
   || (248 <=? n))%N.

(** The text of one line feed. *)
Definition newline : string := String "010" "".

(** [s.startswith(p)], returning what follows the prefix. *)
Fixpoint strip_prefix (p s : string) : option string :=
  match p, s with
  | "", _ => Some s
  | String a p', String b s' =>
      if Ascii.eqb a b then strip_prefix p' s' else None
  | String _ _, "" => None
  end.

(** [s.count(c)] for a one-character [c]. *)
Fixpoint count (c : ascii) (s : string) : Z :=
  match s with
  | "" => 0
  | String a s' => (if Ascii.eqb a c then 1 else 0) + count c s'
  end.

(** [c in s] for a one-character [c]. *)
Fixpoint contains (c : ascii) (s : string) : bool :=
  match s with
  | "" => false
  | String a s' => Ascii.eqb a c || contains c s'
  end.

(** [sep.join(l)]. *)
Fixpoint join (sep : string) (l : list string) : string :=
  match l with
  | [] => ""
  | [x] => x
  | x :: l' => x +:+ sep +:+ join sep l'
  end.

(** [''.join(l)]. *)
Fixpoint concat (l : list string) : string :=
  match l with
  | [] => ""
  | x :: l' => x +:+ concat l'
  end.

(** [s.split(c)] for a one-character separator: never the empty list. *)
Fixpoint split (c : ascii) (s : string) : list string :=
  match s with
  | "" => [""]
  | String a s' =>
      if Ascii.eqb a c then "" :: split c s'
      else match split c s' with
           | h :: t => String a h :: t
           | [] => [String a ""]
           end
  end.

(** [f.readlines()], and the iteration [for line in f]: every line keeps
    its terminating newline, the last one has none when the text does not
    end in one. *)
Fixpoint readlines (s : string) : list string :=
  match s with
  | "" => []
  | String a s' =>
      if Ascii.eqb a "010" then String a "" :: readlines s'
      else match readlines s' with
           | h :: t => String a h :: t
           | [] => [String a ""]
           end
  end.

(** The text without the characters of the class [cls] at its start, and
    at its end. *)
Fixpoint drop_leading (cls : ascii → bool) (s : string) : string :=
  match s with
  | String a s' => if cls a then drop_leading cls s' else s
  | "" => ""
  end.

Fixpoint drop_trailing (cls : ascii → bool) (s : string) : string :=
  match s with
  | "" => ""
  | String a s' =>
      match drop_trailing cls s' with
      | "" => if cls a then "" else String a ""
      | r => String a r
      end
  end.

(** [s.strip()]. *)
Definition strip (s : string) : string :=
  drop_trailing is_space (drop_leading is_space s).

(** [s.replace(old, new)] for a non-empty [old]: the occurrences of [old]
    are taken from the left and do not overlap.  [skip] counts the
    characters of the occurrence under way that are still to be dropped. *)
Fixpoint replace_from (old new : string) (skip : nat) (s : string) : string :=
  match s with
  | "" => ""
  | String a s' =>
      match skip with
      | S k => replace_from old new k s'
      | O =>
          match strip_prefix old s with
          | Some _ => new +:+ replace_from old new (Nat.pred (String.length old)) s'
          | None => String a (replace_from old new 0 s')
          end
      end
  end.

Definition replace (s old new : string) : string := replace_from old new 0 s.

(** The index that a slice bound [i] denotes in a sequence of length [n]. *)
Definition slice_bound (n i : Z) : Z :=
  if i <? 0 then Z.max (i + n) 0 else Z.min i n.

(** [l[lo:hi]]. *)
Definition slice {A} (l : list A) (lo hi : Z) : list A :=
  let n := Z.of_nat (length l) in
  let lo' := slice_bound n lo in
  let hi' := slice_bound n hi in
  take (Z.to_nat (hi' - lo')) (drop (Z.to_nat lo') l).

(** [range(lo, hi)]. *)
Definition range (lo hi : Z) : list Z := seqZ lo (hi - lo).

(** The digits of [int(s)], after the sign: decimal digits, with single
    underscores allowed between two digits.  [acc] is the value read so
    far, [after_digit] tells whether the previous character was a digit. *)
Fixpoint digits (acc : Z) (after_digit : bool) (s : string) : option Z :=
  match s with
  | "" => if after_digit then Some acc else None
  | String a s' =>
      match Ascii.is_nat a with
      | Some d => digits (10 * acc + Z.of_nat d) true s'
      | None =>
          if Ascii.eqb a "_" && after_digit then
            match s' with
            | String b _ => if Ascii.is_nat b is Some _ then digits acc false s' else None
            | "" => None
            end
          else None
      end
  end.

(** [int(s)]: the padding around the number is dropped, one sign is
    allowed.  (The interpreter's configurable cap on the number of digits
    is not part of the model.) *)
Definition int (s : string) : result Z :=
  let body := drop_trailing is_int_space (drop_leading is_int_space s) in
  let parsed :=
    match body with
    | String "+" r => digits 0 false r
    | String "-" r => Z.opp <$> digits 0 false r
    | _ => digits 0 false body
    end in
  match parsed with
  | Some z => Ok z
  | None => Raise ValueError
  end.

End Py.

(** ** The fragment of Python's [re] that the scripts use

    A pattern is a sequence of items; alternatives and repetitions are
    tried in the order of a backtracking matcher: a greedy repetition takes
    the longest run first and gives characters back, a lazy one takes the
    shortest first. *)

Module Re.

Inductive item :=
| Lit (s : string)                        (* literal text *)
| One (cls : ascii → bool)                (* one character of a class *)
| Star (greedy : bool) (cls : ascii → bool)  (* [c*] and [c*?] *)
| Alt (alts : list string).               (* [(a|b|...)] over literals *)

Definition pattern := list item.

(** What one successful match consumed, item by item, and what is left. *)
Definition matched : Type := list string * string.

Definition consume (piece : string) (m : option matched) : option matched :=
  match m with
  | Some (ps, rest) => Some (piece :: ps, rest)
  | None => None
  end.

Definition extend (a : ascii) (m : option matched) : option matched :=
  match m with
  | Some (p :: ps, rest) => Some (String a p :: ps, rest)
  | _ => None
  end.

(** A repetition of [cls] followed by the rest of the pattern, [k]. *)
Fixpoint star (greedy : bool) (cls : ascii → bool)
  (k : string → option matched) (s : string) : option matched :=
  let stop := consume "" (k s) in
  match s with
  | String a s' =>
      if cls a then
        if greedy then
          match extend a (star greedy cls k s') with
          | Some m => Some m
          | None => stop
          end
        else
          match stop with
          | Some m => Some m
          | None => extend a (star greedy cls k s')
          end
      else stop
  | "" => stop
  end.

(** The alternatives [l], in order, each followed by the rest of the
    pattern, [k]. *)
Fixpoint alt (k : string → option matched) (s : string) (l : list string)
  : option matched :=
  match l with
  | [] => None
  | a :: l' =>
      match Py.strip_prefix a s with
      | Some s' =>
          match consume a (k s') with
          | Some m => Some m
          | None => alt k s l'
          end
      | None => alt k s l'
      end
  end.

(** Match the pattern at the start of [s]. *)
Fixpoint match_here (r : pattern) (s : string) : option matched :=
  match r with
  | [] => Some ([], s)
  | Lit l :: r' =>
      match Py.strip_prefix l s with
      | Some s' => consume l (match_here r' s')
      | None => None
      end
  | One cls :: r' =>
      match s with
      | String a s' =>
          if cls a then consume (String a "") (match_here r' s') else None
      | "" => None
      end
  | Star greedy cls :: r' => star greedy cls (match_here r') s
  | Alt alts :: r' => alt (match_here r') s alts
  end.

(** [re.match(r, s)]: is there a match at the start of [s]? *)
Definition match_ (r : pattern) (s : string) : bool :=
  bool_decide (is_Some (match_here r s)).

(** [re.search(r, s)]: the leftmost match, as the pieces it consumed. *)
Fixpoint search (r : pattern) (s : string) : option (list string) :=
  match match_here r s with
  | Some (ps, _) => Some ps
  | None =>
      match s with
      | String _ s' => search r s'
      | "" => None
      end
  end.

(** [re.sub(r, repl, s)] for a replacement text without escapes and a
    pattern that matches no empty text (the Rewriter's pattern begins with
    a literal): the matches are taken from the left and do not overlap.
    [skip] counts the characters of the match under way that are still to
    be dropped. *)
Fixpoint sub_from (r : pattern) (repl : string) (skip : nat) (s : string)
  : string :=
  match s with
  | "" => ""
  | String a s' =>
      match skip with
      | S k => sub_from r repl k s'
      | O =>
          match match_here r s with
          | Some (_, rest) =>
              match (String.length s - String.length rest)%nat with
              | S k => repl +:+ sub_from r repl k s'
              | O => String a (sub_from r repl 0 s')
              end
          | None => String a (sub_from r repl 0 s')
          end
      end
  end.

Definition sub (r : pattern) (repl s : string) : string := sub_from r repl 0 s.

End Re.

(** ** The Scanner: [extract_handlers.py] *)

Module Scanner.

(** The method under way: the dictionary [current_method] before its
    closing line is known. *)
Record current := {
  c_name : string;
  c_start : Z;
  c_lines : list string
}.

(** A closed method, as appended to [handlers]. *)
Record handler := {
  name : string;
  start : Z;
  lines : list string;
  full_text : string;
  end_ : Z
}.

Record state := {
  handlers : list handler;
  current_method : option current;
  brace_count : Z;
  in_method : bool
}.

Definition initial : state :=
  {| handlers := []; current_method := None; brace_count := 0;
     in_method := false |}.

(** [r'  private async (handleEvent|handleReminder|...|handleBulk)'] *)
Definition declaration_pattern : Re.pattern :=
  [ Re.Lit "  private async ";
    Re.Alt [ "handleEvent"; "handleReminder"; "handleTask"; "handleSettings";
             "handleState"; "handleAdding"; "handleListing"; "handleMarking";
             "handleDeleting"; "handleUpdating"; "handleBulk" ] ].

(** [r'private async (\w+)\('] *)
Definition name_pattern : Re.pattern :=
  [ Re.Lit "private async "; Re.One Py.is_word; Re.Star true Py.is_word;
    Re.Lit "(" ].

(** [.group(1)] of a match of [name_pattern]. *)
Definition group1 (pieces : list string) : string :=
  match pieces with
  | [_; c; w; _] => c +:+ w
  | _ => ""
  end.

(** [line.count('{') - line.count('}')] *)
Definition net_braces (line : string) : Z :=
  Py.count "{" line - Py.count "}" line.

(** The body of the loop, for the line of index [i].  Taking [.group(1)]
    of a failed search raises [AttributeError]. *)
Definition scan_line (i : Z) (line : string) (st : state) : result state :=
  if Re.match_ declaration_pattern line then
    match Re.search name_pattern line with
    | None => Raise AttributeError
    | Some pieces =>
        Ok {| handlers := handlers st;
              current_method :=
                Some {| c_name := group1 pieces; c_start := i;
                        c_lines := [line] |};
              brace_count := net_braces line;
              in_method := true |}
    end
  else
    match in_method st, current_method st with
    | true, Some m =>
        let lines' := c_lines m ++ [line] in
        let count' := brace_count st + net_braces line in
        if (count' =? 0) && Py.contains "{" (Py.concat lines') then
          Ok {| handlers :=
                  handlers st ++
                  [ {| name := c_name m; start := c_start m; lines := lines';
                       full_text := Py.join Py.newline lines'; end_ := i |} ];
                current_method := None;
                brace_count := 0;
                in_method := false |}
        else
          Ok {| handlers := handlers st;
                current_method :=
                  Some {| c_name := c_name m; c_start := c_start m;
                          c_lines := lines' |};
                brace_count := count';
                in_method := true |}
    | _, _ => Ok st
    end.

(** [for i, line in enumerate(lines)], from index [i] on. *)
Fixpoint scan_from (i : Z) (ls : list string) (st : state) : result state :=
  match ls with
  | [] => Ok st
  | line :: ls' => st' ← scan_line i line st; scan_from (i + 1) ls' st'
  end.

(** The lines that the Scanner iterates over: [content.split('\n')]. *)
Definition lines_of (content : string) : list string := Py.split "010" content.

(** The list [handlers] at the end of the scan of a file. *)
Definition scan (content : string) : result (list handler) :=
  handlers <$> scan_from 0 (lines_of content) initial.

(** The text written to [handler_info.txt]. *)
Definition handler_info (hs : list handler) : string :=
  Py.concat
    (map (λ h, name h +:+ ":" +:+ pretty (start h) +:+ ":" +:+ pretty (end_ h)
               +:+ Py.newline) hs).

End Scanner.

(** ** The listing [handler_info.txt], as the Extractor and the Rewriter
    read it (both scripts carry the same loop) *)

Module Listing.

Record descriptor := {
  name : string;
  start : Z;
  end_ : Z
}.

(** The one method that neither script moves. *)
Definition exception : string := "handleStateMessage".

(** The body of the loop [for line in f]: a line that is blank once
    stripped is passed over; unpacking anything but three fields raises
    [ValueError], and so does [int] on a field that is no integer.  The
    fields are converted only for a name other than the exception. *)
Definition read_line (line : string) (acc : list descriptor)
  : result (list descriptor) :=
  if String.eqb (Py.strip line) "" then Ok acc
  else
    match Py.split ":" (Py.strip line) with
    | [n; s; e] =>
        if negb (String.eqb n exception) then
          s' ← Py.int s;
          e' ← Py.int e;
          Ok (acc ++ [ {| name := n; start := s'; end_ := e' |} ])
        else Ok acc
    | _ => Raise ValueError
    end.

Fixpoint read_lines (ls : list string) (acc : list descriptor)
  : result (list descriptor) :=
  match ls with
  | [] => Ok acc
  | line :: ls' => acc' ← read_line line acc; read_lines ls' acc'
  end.

Definition read (listing : string) : result (list descriptor) :=
  read_lines (Py.readlines listing) [].

End Listing.

(** ** The Extractor: [extract_full_handlers.py] *)

Module Extractor.

Import Listing.

Definition handlers_to_extract : string → result (list descriptor) :=
  Listing.read.

(** The placeholder that closes a fresh [StateRouter.ts]. *)
Definition placeholder : string :=
"  // Placeholder - will be filled with actual handler implementations
  // This is just the structure, the actual implementations will be extracted from MessageRouter.ts
}".

Definition banner : string :=
"
  // ========== EVENT HANDLERS - FULL IMPLEMENTATION ==========

".

Definition closing : string :=
"}
".

(** [lines[start:end+1]] followed by the spacing line. *)
Definition block (lines : list string) (h : descriptor) : list string :=
  Py.slice lines (start h) (end_ h + 1) ++ [Py.newline].

(** The loop that fills [extracted_code]. *)
Fixpoint extract (lines : list string) (hs : list descriptor)
  (extracted_code : list string) : list string :=
  match hs with
  | [] => extracted_code
  | h :: hs' => extract lines hs' (extracted_code ++ block lines h)
  end.

(** What the script writes after the target's own text. *)
Definition appended (lines : list string) (hs : list descriptor) : string :=
  banner +:+ Py.concat (extract lines hs []) +:+ closing.

(** The script: the new text of [StateRouter.ts], from the texts of
    [MessageRouter.ts], [handler_info.txt] and [StateRouter.ts]. *)
Definition run (source listing target : string) : result string :=
  let lines := Py.readlines source in
  hs ← handlers_to_extract listing;
  let state_router_content := Py.replace target placeholder "" in
  Ok (state_router_content +:+ appended lines hs).

End Extractor.

(** ** The Rewriter: [update_message_router.py] *)

Module Rewriter.

Import Listing.

Definition handlers_to_remove : string → result (list descriptor) :=
  Listing.read.

(** [for i in range(start, end + 1): lines_to_remove.add(i)] *)
Definition mark (s : gset Z) (h : descriptor) : gset Z :=
  foldl (λ s i, {[ i ]} ∪ s) s (Py.range (start h) (end_ h + 1)).

Definition lines_to_remove (hs : list descriptor) : gset Z :=
  foldl mark ∅ hs.

(** [for i, line in enumerate(lines): if i not in lines_to_remove: ...],
    from index [i] on. *)
Fixpoint keep_from (i : Z) (removed : gset Z) (lines : list string)
  : list string :=
  match lines with
  | [] => []
  | line :: lines' =>
      if decide (i ∈ removed) then keep_from (i + 1) removed lines'
      else line :: keep_from (i + 1) removed lines'
  end.

(** The deletion step. *)
Definition new_lines (hs : list descriptor) (lines : list string)
  : list string :=
  keep_from 0 (lines_to_remove hs) lines.

(** The three anchors replaced by [str.replace], with their replacements. *)
Definition import_anchor : string :=
  "import { NLPRouter } from '../routing/NLPRouter.js';".
Definition import_text : string :=
"import { NLPRouter } from '../routing/NLPRouter.js';
import { StateRouter } from '../routing/StateRouter.js';".

Definition field_anchor : string :=
  "  private nlpRouter: NLPRouter;".
Definition field_text : string :=
"  private nlpRouter: NLPRouter;
  private stateRouter: StateRouter;".

Definition nlp_router_init : string :=
  "    // Set callback for showing menu after authentication".
Definition state_router_init : string :=
"    // Initialize StateRouter with required dependencies
    this.stateRouter = new StateRouter(
      stateManager,
      eventService,
      reminderService,
      taskService,
      settingsService,
      this.commandRouter,
      this.sendMessage.bind(this),
      this.reactToLastMessage.bind(this)
    );

    // Set callback for showing menu after authentication".

(** The pattern [old_handle_state], under [re.DOTALL]. *)
Definition old_handle_state : Re.pattern :=
  [ Re.Lit "  private async handleStateMessage(";
    Re.Star true Py.is_space; Re.Lit "phone: string,";
    Re.Star true Py.is_space; Re.Lit "userId: string,";
    Re.Star true Py.is_space; Re.Lit "state: ConversationState,";
    Re.Star true Py.is_space; Re.Lit "text: string";
    Re.Star true Py.is_space; Re.Lit "): Promise<void> {";
    Re.Star true (λ c, negb (Ascii.eqb c "}"));
    Re.Lit "switch (state) {";
    Re.Star false (λ _, true);
    Re.Lit "
  }" ].

Definition new_handle_state : string :=
"  private async handleStateMessage(
    phone: string,
    userId: string,
    state: ConversationState,
    text: string
  ): Promise<void> {
    // Handle MAIN_MENU state here (not delegated to StateRouter)
    if (state === ConversationState.IDLE || state === ConversationState.MAIN_MENU) {
      await this.handleMainMenuChoice(phone, userId, text);
      return;
    }

    // Delegate all other states to StateRouter
    await this.stateRouter.handleStateMessage(phone, userId, state, text);
  }".

(** The four substitutions, in the order of the script. *)
Definition add_import (content : string) : string :=
  Py.replace content import_anchor import_text.
Definition add_field (content : string) : string :=
  Py.replace content field_anchor field_text.
Definition add_init (content : string) : string :=
  Py.replace content nlp_router_init state_router_init.
Definition delegate (content : string) : string :=
  Re.sub old_handle_state new_handle_state content.

Definition substitute (content : string) : string :=
  delegate (add_init (add_field (add_import content))).

(** The script: the new text of [MessageRouter.ts], from the texts of
    [handler_info.txt] and [MessageRouter.ts]. *)
Definition run (listing source : string) : result string :=
  hs ← handlers_to_remove listing;
  let lines := Py.readlines source in
  Ok (substitute (Py.concat (new_lines hs lines))).

End Rewriter.

(** * The vocabulary of the properties *)

(** ** [str.replace] *)

(** [old] occurs in [s]. *)
Definition Occurs (old s : string) : Prop :=
  ∃ pre post, s = pre +:+ old +:+ post.

(** [old] occurs in [s] at one place only, between [pre] and [post]. *)
Definition OccursOnce (old s pre post : string) : Prop :=
  s = pre +:+ old +:+ post ∧
  ∀ pre' post', s = pre' +:+ old +:+ post' → pre' = pre.

(** ** The pattern matcher *)

(** A continuation is sound when what it returns splits its input. *)
Definition sound (k : string → option Re.matched) : Prop :=
  ∀ s ps rest, k s = Some (ps, rest) → s = Py.concat ps +:+ rest.

(** ** [re.sub] *)

(** The pattern matches nowhere in [s]. *)
Definition NoMatch (r : Re.pattern) (s : string) : Prop :=
  ∀ pre s', s = pre +:+ s' → Re.match_here r s' = None.

(** The pattern matches in [s] at one place only: after [pre], where it
    consumes [m] and leaves [post]. *)
Definition MatchOnce (r : Re.pattern) (s pre m post : string) : Prop :=
  s = pre +:+ m +:+ post ∧
  (∃ ps, Re.match_here r (m +:+ post) = Some (ps, post)) ∧
  ∀ pre' s', s = pre' +:+ s' → is_Some (Re.match_here r s') → pre' = pre.

(** ** Counting the places of a match, to decide [OccursOnce] and
    [MatchOnce] on a given text *)

(** The indices, counted from [i], of the suffixes of [s] that satisfy
    [P]. *)
Fixpoint positions (P : string → bool) (i : nat) (s : string) : list nat :=
  (if P s then [i] else []) ++
  match s with
  | "" => []
  | String _ s' => positions P (S i) s'
  end.

(** [s] starts with [old]. *)
Definition starts (old s : string) : bool :=
  bool_decide (is_Some (Py.strip_prefix old s)).

(** The pattern matches at the start of [s]. *)
Definition matches (r : Re.pattern) (s : string) : bool :=
  bool_decide (is_Some (Re.match_here r s)).

(** ** The listing *)

(** The colon-separated fields of a line of the listing. *)
Definition fields (line : string) : list string :=
  Py.split ":" (Py.strip line).

(** The record on a line of three fields: name, start, end. *)
Definition record_of (line : string) : option (string * string * string) :=
  match fields line with
  | [n; s; e] => Some (n, s, e)
  | _ => None
  end.

(** The records of a listing, one per non-blank line. *)
Definition listed (ls : list string) : list (string * string * string) :=
  omap record_of (filter (λ line, Py.strip line ≠ "") ls).

(** The record names [handleStateMessage]. *)
Definition is_exception (rec : string * string * string) : Prop :=
  rec.1.1 = Listing.exception.

#[global] Instance is_exception_dec rec : Decision (is_exception rec).
Proof. unfold is_exception. apply _. Defined.

(** The listed records other than the exception, in the listing's order. *)
Definition selected (ls : list string) : list (string * string * string) :=
  filter (λ rec, ¬ is_exception rec) (listed ls).

(** The descriptor [h] is what the scripts make of the record [rec]. *)
Definition Describes (h : Listing.descriptor) (rec : string * string * string)
  : Prop :=
  Listing.name h = rec.1.1 ∧
  Py.int rec.1.2 = Ok (Listing.start h) ∧
  Py.int rec.2 = Ok (Listing.end_ h).

(** A line on which the loop raises: it is not blank, and it has not three
    fields or, unless it names the exception, a numeric field that [int]
    rejects. *)
Definition malformed (line : string) : bool :=
  negb (String.eqb (Py.strip line) "") &&
  match fields line with
  | [n; s; e] =>
      negb (String.eqb n Listing.exception) &&
      negb (is_ok (Py.int s) && is_ok (Py.int e))
  | _ => true
  end.

(** A non-blank line that has not three fields, or a numeric field that
    [int] rejects, whatever its name. *)
Definition unparseable (line : string) : bool :=
  negb (String.eqb (Py.strip line) "") &&
  match fields line with
  | [n; s; e] => negb (is_ok (Py.int s) && is_ok (Py.int e))
  | _ => true
  end.

(** ** The Extractor *)

(** The text of the method that a descriptor names: the lines of its
    range, joined. *)
Definition method_text (lines : list string) (h : Listing.descriptor) : string :=
  Py.concat (Py.slice lines (Listing.start h) (Listing.end_ h + 1)).

(** The blocks in the order of [hs], one blank line after each. *)
Definition blocks (lines : list string) (hs : list Listing.descriptor) : string :=
  Py.concat (map (λ h, method_text lines h +:+ Py.newline) hs).

(** ** The Rewriter's deletion step *)

(** [enumerate(l)] *)
Definition enumerate {A} (l : list A) : list (Z * A) :=
  zip (seqZ 0 (Z.of_nat (length l))) l.

(** The index [i] lies in the range of the descriptor, ends included. *)
Definition in_range (h : Listing.descriptor) (i : Z) : Prop :=
  Listing.start h ≤ i ≤ Listing.end_ h.

(** The index [i] lies in the union of the ranges. *)
Definition covered (hs : list Listing.descriptor) (i : Z) : Prop :=
  Exists (λ h, in_range h i) hs.

(** The lines outside the union of the ranges, in their order. *)
Definition surviving (hs : list Listing.descriptor) (lines : list string)
  : list string :=
  (filter (λ p, ¬ covered hs p.1) (enumerate lines)).*2.

(** Each range is apart from every later one. *)
Fixpoint pairwise_disjoint (hs : list Listing.descriptor) : Prop :=
  match hs with
  | [] => True
  | h :: hs' =>
      Forall (λ h', Listing.end_ h < Listing.start h'
                    ∨ Listing.end_ h' < Listing.start h) hs'
      ∧ pairwise_disjoint hs'
  end.

(** [sum(end - start + 1 for each removed descriptor)] *)
Fixpoint removed_count (hs : list Listing.descriptor) : Z :=
  match hs with
  | [] => 0
  | h :: hs' => (Listing.end_ h - Listing.start h + 1) + removed_count hs'
  end.

(** ** The Scanner *)

(** The line declares a handler: the first test of the loop body holds. *)
Definition is_declaration (line : string) : bool :=
  Re.match_ Scanner.declaration_pattern line.

(** A declaration line has a name that the search of the loop body finds;
    any other line passes. *)
Definition named (line : string) : Prop :=
  is_declaration line = true →
  is_Some (Re.search Scanner.name_pattern line).

(** The Scanner is in the method [m]. *)
Definition tracking (st : Scanner.state) (m : Scanner.current) : Prop :=
  Scanner.in_method st = true ∧ Scanner.current_method st = Some m.

(** The method under way, with one more line. *)
Definition with_line (m : Scanner.current) (line : string) : Scanner.current :=
  {| Scanner.c_name := Scanner.c_name m;
     Scanner.c_start := Scanner.c_start m;
     Scanner.c_lines := Scanner.c_lines m ++ [line] |}.

(** The method under way, closed at the line of index [i]. *)
Definition closed_at (m : Scanner.current) (i : Z) : Scanner.handler :=
  {| Scanner.name := Scanner.c_name m;
     Scanner.start := Scanner.c_start m;
     Scanner.lines := Scanner.c_lines m;
     Scanner.full_text := Py.join Py.newline (Scanner.c_lines m);
     Scanner.end_ := i |}.

(** With [line] the counter comes back to zero, an opening brace having
    been seen on the lines of the method, [line] included. *)
Definition closes (st : Scanner.state) (m : Scanner.current) (line : string)
  : Prop :=
  Scanner.brace_count st + Scanner.net_braces line = 0 ∧
  Py.contains "{" (Py.concat (Scanner.c_lines m ++ [line])) = true.

(** The place, among the lines [body] that follow the lines read so far,
    of the first one that brings the counter to zero with an opening
    brace seen; [count] and [seen] are the counter and the sighting before
    [body]. *)
Fixpoint first_close (count : Z) (seen : bool) (body : list string)
  : option nat :=
  match body with
  | [] => None
  | line :: body' =>
      let count' := count + Scanner.net_braces line in
      let seen' := seen || Py.contains "{" line in
      if (count' =? 0) && seen' then Some 0%nat
      else S <$> first_close count' seen' body'
  end.

(** What holds of the state before the line of index [i] is read. *)
Definition scan_invariant (i : Z) (st : Scanner.state) : Prop :=
  0 ≤ i ∧
  Forall (λ h, 0 ≤ Scanner.start h ∧ Scanner.start h + 1 ≤ Scanner.end_ h
               ∧ Scanner.end_ h < i) (Scanner.handlers st) ∧
  StronglySorted (λ h1 h2, Scanner.start h1 ≤ Scanner.start h2)
    (Scanner.handlers st) ∧
  ∀ m, Scanner.current_method st = Some m →
       0 ≤ Scanner.c_start m < i ∧
       Forall (λ h, Scanner.end_ h < Scanner.c_start m) (Scanner.handlers st).

(** ** The scripts on a small router *)

(** A ten-line source with two handlers, at lines 2-4 and 6-8. *)
Definition sample_source : string :=
"import { NLPRouter } from '../routing/NLPRouter.js';
class MessageRouter {
  private async handleEventFoo(phone: string): Promise<void> {
    await this.foo(phone);
  }

  private async handleStateMessage(phone: string): Promise<void> {
    switch (state) {}
  }
}".

Definition sample_listing : string :=
"handleEventFoo:2:4
handleStateMessage:6:8
".

Definition sample_target : string :=
  "class StateRouter {
" +:+ Extractor.placeholder +:+ "
".

(** A router that holds each of the Rewriter's four anchors once. *)
Definition sample_content : string :=
"import { NLPRouter } from '../routing/NLPRouter.js';
class MessageRouter {
  private nlpRouter: NLPRouter;
  constructor() {
    // Set callback for showing menu after authentication
  }
  private async handleStateMessage(
    phone: string,
    userId: string,
    state: ConversationState,
    text: string
  ): Promise<void> {
    switch (state) {
      case ConversationState.IDLE:
        break;
    }
  }
}
".

(** The text of [s] before the index [n], and from the index [n] on. *)
Definition before (n : nat) (s : string) : string := String.substring 0 n s.
Definition after (n : nat) (s : string) : string :=
  String.substring n (String.length s - n) s.

(** The Scanner in [handleEventFoo], its declaration line just read. *)
Definition sample_state : Scanner.state :=
  {| Scanner.handlers := [];
     Scanner.current_method :=
       Some {| Scanner.c_name := "handleEventFoo"; Scanner.c_start := 2;
               Scanner.c_lines :=
                 ["  private async handleEventFoo(phone: string): Promise<void> {"] |};
     Scanner.brace_count := 1;
     Scanner.in_method := true |}.

Definition one_line_method : string := "  private async handleEventFoo() {}".

Definition sample_descriptors : list Listing.descriptor :=
  [ {| Listing.name := "handleEventFoo"; Listing.start := 2;
       Listing.end_ := 4 |} ].

Definition sample_pre : string := "class StateRouter {
".
Definition sample_post : string := "
".

(** A target that never held the placeholder. *)
Definition bare_target : string := "class StateRouter {
}
".

(** A listing that names one range twice. *)
Definition doubled_listing : string :=
"handleEventFoo:2:4
handleEventFoo:2:4
".

Definition doubled_descriptors : list Listing.descriptor :=
  sample_descriptors ++ sample_descriptors.

(** A listing whose record of the exception has no numbers. *)
Definition unnumbered_listing : string :=
"handleStateMessage:first:last
".

(** A listing with a record of two fields. *)
Definition short_listing : string :=
"handleEventFoo:2:4

handleTaskBar:7
".

(** A source that imports the router twice. *)
Definition twice_imported : string :=
"import { NLPRouter } from '../routing/NLPRouter.js';
import { NLPRouter } from '../routing/NLPRouter.js';
".

(** ** Further vocabulary: texts, numerals and lines *)

(** Every character of [s] is in the class [cls]. *)
Fixpoint all_chars (cls : ascii → bool) (s : string) : bool :=
  match s with
  | "" => true
  | String a s' => cls a && all_chars cls s'
  end.

(** The character is a decimal digit. *)
Definition is_digit (a : ascii) : bool :=
  bool_decide (is_Some (Ascii.is_nat a)).

(** The value of the decimal numeral [s], read after the value [acc]. *)
Fixpoint numeral (acc : Z) (s : string) : Z :=
  match s with
  | "" => acc
  | String a s' =>
      match Ascii.is_nat a with
      | Some d => numeral (10 * acc + Z.of_nat d) s'
      | None => acc
      end
  end.

(** ** Further vocabulary: the Scanner's trace *)

(** The net brace count of some lines together. *)
Definition sum_braces (ls : list string) : Z :=
  foldr (λ l acc, Scanner.net_braces l + acc) 0 ls.

(** The place, among the lines after the first one of [ls], of the first
    line at which the loop closes a method that [ls] begins. *)
Definition close_point (ls : list string) : option nat :=
  match ls with
  | decl :: body =>
      first_close (Scanner.net_braces decl) (Py.contains "{" decl) body
  | [] => None
  end.

(** The lines [ls] begin with a declaration line that gives the name [nm],
    and hold no other declaration line. *)
Definition opens (ls : list string) (nm : string) : Prop :=
  ∃ decl body ps,
    ls = decl :: body ∧
    is_declaration decl = true ∧
    Re.search Scanner.name_pattern decl = Some ps ∧
    nm = Scanner.group1 ps ∧
    Forall (λ l, is_declaration l = false) body.

(** The closed method [h] is in keeping with the lines [read]. *)
Definition recorded (read : list string) (h : Scanner.handler) : Prop :=
  ∃ s e : nat,
    Scanner.start h = Z.of_nat s ∧ Scanner.end_ h = Z.of_nat e ∧
    (s < e < length read)%nat ∧
    Scanner.lines h = take (e - s + 1) (drop s read) ∧
    Scanner.full_text h = Py.join Py.newline (Scanner.lines h) ∧
    opens (Scanner.lines h) (Scanner.name h) ∧
    sum_braces (Scanner.lines h) = 0 ∧
    Py.contains "{" (Py.concat (Scanner.lines h)) = true ∧
    close_point (Scanner.lines h) = Some (e - s - 1)%nat.

(** The method under way, if any, is in keeping with the lines [read]. *)
Definition under_way (read : list string) (st : Scanner.state) : Prop :=
  match Scanner.current_method st with
  | None => True
  | Some m =>
      Scanner.in_method st = true ∧
      ∃ s : nat,
        Scanner.c_start m = Z.of_nat s ∧ (s < length read)%nat ∧
        Scanner.c_lines m = drop s read ∧
        opens (Scanner.c_lines m) (Scanner.c_name m) ∧
        Scanner.brace_count st = sum_braces (Scanner.c_lines m) ∧
        close_point (Scanner.c_lines m) = None ∧
        Forall (λ h, Scanner.end_ h < Scanner.c_start m) (Scanner.handlers st)
  end.

(** What holds of the state once the lines [read] have been gone over. *)
Definition scan_trace (read : list string) (st : Scanner.state) : Prop :=
  Forall (recorded read) (Scanner.handlers st) ∧
  StronglySorted (λ h1 h2, Scanner.end_ h1 < Scanner.start h2)
    (Scanner.handlers st) ∧
  under_way read st.

(** A name as the pattern [\w+] finds it: word characters, one at least. *)
Definition wordy (s : string) : Prop :=
  s ≠ "" ∧ all_chars Py.is_word s = true.

(** A declaration line in which the search for the name fails. *)
Definition unnamed (line : string) : Prop :=
  is_declaration line = true ∧
  Re.search Scanner.name_pattern line = None.

(** ** Further vocabulary: from the Scanner to the listing *)

(** A character that is neither white space nor a colon. *)
Definition is_plain (a : ascii) : bool :=
  negb (Py.is_space a) && negb (Ascii.eqb a ":").

(** The record that the Scanner writes for a method, read as a descriptor. *)
Definition descriptor_of (h : Scanner.handler) : Listing.descriptor :=
  {| Listing.name := Scanner.name h;
     Listing.start := Scanner.start h;
     Listing.end_ := Scanner.end_ h |}.

(** The descriptors of the methods to move: all but the exception, in
    order. *)
Definition moved (hs : list Scanner.handler) : list Listing.descriptor :=
  descriptor_of <$> filter (λ h, Scanner.name h ≠ Listing.exception) hs.

(** The line that the Scanner writes for a method, less its newline. *)
Definition entry (h : Scanner.handler) : string :=
  Scanner.name h +:+ ":" +:+ pretty (Scanner.start h) +:+ ":"
  +:+ pretty (Scanner.end_ h).

(** ** Further vocabulary: the pieces of a match *)

(** The piece [p] is text that the item may consume. *)
Definition fits (it : Re.item) (p : string) : Prop :=
  match it with
  | Re.Lit l => p = l
  | Re.One cls => ∃ a, p = String a "" ∧ cls a = true
  | Re.Star _ cls => all_chars cls p = true
  | Re.Alt alts => p ∈ alts
  end.

(** The line that ends a match of the Rewriter's pattern. *)
Definition closing_line : string := "
  }".

(** The Rewriter's pattern from the signature to the opening brace of the
    body, after its first literal. *)
Definition signature_rest : Re.pattern :=
  [ Re.Star true Py.is_space; Re.Lit "phone: string,";
    Re.Star true Py.is_space; Re.Lit "userId: string,";
    Re.Star true Py.is_space; Re.Lit "state: ConversationState,";
    Re.Star true Py.is_space; Re.Lit "text: string";
    Re.Star true Py.is_space; Re.Lit "): Promise<void> {";
    Re.Star true (λ c, negb (Ascii.eqb c "}")) ].

(** A text that starts with the signature of [handleStateMessage] as the
    Rewriter's pattern wants it, and whose body runs to the first closing
    line, which [rest] follows. *)
Definition spans (s rest : string) : Prop :=
  ∃ w1 w2 w3 w4 w5 gap body,
    s = "  private async handleStateMessage(" +:+ w1
        +:+ "phone: string," +:+ w2
        +:+ "userId: string," +:+ w3
        +:+ "state: ConversationState," +:+ w4
        +:+ "text: string" +:+ w5
        +:+ "): Promise<void> {" +:+ gap
        +:+ "switch (state) {" +:+ body +:+ closing_line +:+ rest ∧
    Forall (λ w, all_chars Py.is_space w = true) [w1; w2; w3; w4; w5] ∧
    all_chars (λ c, negb (Ascii.eqb c "}")) gap = true ∧
    ∀ pre post,
      body +:+ closing_line +:+ rest = pre +:+ closing_line +:+ post →
      (String.length body ≤ String.length pre)%nat.

(** ** Further sample inputs *)

(** What the Scanner records of [sample_source]: [handleEventFoo] at 2-4
    and [handleStateMessage] at 6-8. *)
Definition sample_handlers : list Scanner.handler :=
  Eval vm_compute in
    match Scanner.scan sample_source with Ok hs => hs | Raise _ => [] end.

(** The record of [handleStateMessage] among them. *)
Definition sample_kept : Scanner.handler :=
  Eval vm_compute in
    List.last sample_handlers
      {| Scanner.name := ""; Scanner.start := 0; Scanner.lines := [];
         Scanner.full_text := ""; Scanner.end_ := 0 |}.

(** Both methods of [sample_source], as descriptors. *)
Definition both_descriptors : list Listing.descriptor :=
  [ {| Listing.name := "handleEventFoo"; Listing.start := 2;
       Listing.end_ := 4 |};
    {| Listing.name := "handleTaskBar"; Listing.start := 6;
       Listing.end_ := 8 |} ].

(** A source whose first method is cut short by the declaration of the
    second. *)
Definition interrupted_source : string :=
"class MessageRouter {
  private async handleEventFoo(phone: string): Promise<void> {
  private async handleTaskBar(phone: string): Promise<void> {
    await this.bar(phone);
  }
}".

Definition interrupted_method : Scanner.current :=
  {| Scanner.c_name := "handleEventFoo"; Scanner.c_start := 1;
     Scanner.c_lines :=
       ["  private async handleEventFoo(phone: string): Promise<void> {"] |}.

(** The Scanner after the first two lines of [interrupted_source]. *)
Definition interrupted_state : Scanner.state :=
  {| Scanner.handlers := [];
     Scanner.current_method := Some interrupted_method;
     Scanner.brace_count := 1;
     Scanner.in_method := true |}.

Definition interrupted_handlers : list Scanner.handler :=
  Eval vm_compute in
    match Scanner.scan interrupted_source with Ok hs => hs | Raise _ => [] end.

(** A source with a handler declared as a property: its line passes the
    Scanner's first test and holds no name followed by a parenthesis. *)
Definition nameless_source : string :=
"class MessageRouter {
  private async handleEvent = async () => {
  }
}".

(** A listing whose range lies beyond the end of [sample_source]. *)
Definition far_listing : string :=
"handleEventFoo:20:30
".

Definition far_descriptors : list Listing.descriptor :=
  [ {| Listing.name := "handleEventFoo"; Listing.start := 20;
       Listing.end_ := 30 |} ].

(** A range that starts in [sample_source] and ends beyond it. *)
Definition late_descriptor : Listing.descriptor :=
  {| Listing.name := "handleStateMessage"; Listing.start := 8;
     Listing.end_ := 30 |}.

(** A source that holds none of the Rewriter's anchors. *)
Definition plain_source : string :=
"class MessageRouter {
}
".

(** The method [handleStateMessage] of [sample_content] and what follows
    it. *)
Definition sample_method : string :=
"  private async handleStateMessage(
    phone: string,
    userId: string,
    state: ConversationState,
    text: string
  ): Promise<void> {
    switch (state) {
      case ConversationState.IDLE:
        break;
    }
  }
}".

Definition sample_pieces : list string :=
  Eval vm_compute in
    match Re.match_here Rewriter.old_handle_state sample_method with
    | Some (ps, _) => ps
    | None => []
    end.

Definition sample_rest : string := "
}".

(** * Properties *)

(** ** Strings *)

Section strings.
Implicit Types (s t u : string) (a : ascii).

Lemma str_app_cons a s t : String a s +:+ t = String a (s +:+ t).
Proof. reflexivity. Qed.

Lemma str_app_empty_l s : "" +:+ s = s.
Proof. reflexivity. Qed.

Lemma str_app_empty_r s : s +:+ "" = s.
Proof. induction s as [|a s IH]; [done|]. by rewrite str_app_cons, IH. Qed.

Lemma str_app_assoc s t u : (s +:+ t) +:+ u = s +:+ t +:+ u.
Proof. induction s as [|a s IH]; [done|]. by rewrite !str_app_cons, IH. Qed.

Lemma str_app_length s t :
  String.length (s +:+ t) = (String.length s + String.length t)%nat.
Proof. induction s as [|a s IH]; [done|]. rewrite str_app_cons. simpl. lia. Qed.

Lemma length_zero s : String.length s = 0%nat → s = "".
Proof. by destruct s. Qed.

Lemma ascii_eqb_true a b : Ascii.eqb a b = true ↔ a = b.
Proof. apply Ascii.eqb_eq. Qed.

Lemma strip_prefix_Some p s t : Py.strip_prefix p s = Some t ↔ s = p +:+ t.
Proof.
  revert s. induction p as [|a p IH]; intros s; simpl.
  - rewrite str_app_empty_l. split; congruence.
  - destruct s as [|b s]; [done|]. rewrite str_app_cons.
    destruct (Ascii.eqb a b) eqn:E.
    + apply ascii_eqb_true in E as ->. rewrite IH. split; congruence.
    + apply Ascii.eqb_neq in E. split; [done|congruence].
Qed.

Lemma strip_prefix_app p t : Py.strip_prefix p (p +:+ t) = Some t.
Proof. by apply strip_prefix_Some. Qed.
End strings.

(** ** [str.replace] *)

Lemma replace_from_0 old new a s :
  Py.replace_from old new 0 (String a s)
  = match Py.strip_prefix old (String a s) with
    | Some _ =>
        new +:+ Py.replace_from old new (Nat.pred (String.length old)) s
    | None => String a (Py.replace_from old new 0 s)
    end.
Proof. reflexivity. Qed.

Lemma replace_from_skip old new t s :
  Py.replace_from old new (String.length t) (t +:+ s)
  = Py.replace_from old new 0 s.
Proof.
  induction t as [|a t IH]; [done|]. rewrite str_app_cons. simpl. apply IH.
Qed.

Section replace.
Variables old new : string.
Hypothesis old_nonempty : old ≠ "".

Lemma replace_absent s : ¬ Occurs old s → Py.replace s old new = s.
Proof using Type.
  unfold Py.replace. induction s as [|a s IH]; intros Hno; [done|].
  rewrite replace_from_0.
  destruct (Py.strip_prefix old (String a s)) as [r|] eqn:E.
  - apply strip_prefix_Some in E. destruct Hno. by exists "", r.
  - rewrite IH; [done|]. intros (pre & post & ->).
    apply Hno. by exists (String a pre), post.
Qed.

Lemma replace_first pre post :
  (∀ pre' post', pre +:+ old +:+ post = pre' +:+ old +:+ post' →
                 (String.length pre ≤ String.length pre')%nat) →
  Py.replace (pre +:+ old +:+ post) old new
  = pre +:+ new +:+ Py.replace post old new.
Proof using old_nonempty.
  unfold Py.replace. induction pre as [|a pre IH]; intros Hmin.
  - rewrite !str_app_empty_l. destruct old as [|a o] eqn:Eo; [done|].
    rewrite str_app_cons, replace_from_0, <- str_app_cons, strip_prefix_app.
    simpl Nat.pred. by rewrite replace_from_skip.
  - rewrite !str_app_cons, replace_from_0, <- str_app_cons.
    destruct (Py.strip_prefix old _) as [r|] eqn:E.
    + apply strip_prefix_Some in E.
      specialize (Hmin "" r). rewrite str_app_empty_l in Hmin.
      specialize (Hmin E). simpl in Hmin. lia.
    + rewrite IH; [done|]. intros pre' post' Heq.
      specialize (Hmin (String a pre') post').
      rewrite !str_app_cons in Hmin. rewrite Heq in Hmin.
      specialize (Hmin eq_refl). simpl in Hmin. lia.
Qed.

Lemma replace_once s pre post :
  OccursOnce old s pre post → Py.replace s old new = pre +:+ new +:+ post.
Proof using old_nonempty.
  intros [-> Huniq]. rewrite replace_first.
  - rewrite replace_absent; [done|]. intros (p & q & ->).
    specialize (Huniq (pre +:+ old +:+ p) q).
    rewrite !str_app_assoc in Huniq. specialize (Huniq eq_refl).
    apply (f_equal String.length) in Huniq.
    rewrite !str_app_length in Huniq.
    apply old_nonempty, length_zero. lia.
  - intros pre' post' Heq. by rewrite (Huniq _ _ Heq).
Qed.
End replace.

(** ** The pattern matcher *)

Section matcher.
Implicit Types (r : Re.pattern) (s rest : string) (ps : list string).

Lemma consume_sound k p s ps rest :
  sound k → Re.consume p (k s) = Some (ps, rest) →
  p +:+ s = Py.concat ps +:+ rest.
Proof.
  intros Hk H. destruct (k s) as [[ps' rest']|] eqn:E; [|done].
  simpl in H. injection H as <- <-. apply Hk in E as ->.
  simpl. by rewrite str_app_assoc.
Qed.

Lemma stop_sound k s ps rest :
  sound k → Re.consume "" (k s) = Some (ps, rest) →
  s = Py.concat ps +:+ rest.
Proof. intros Hk H. by apply (consume_sound k "" s) in H. Qed.

Lemma extend_sound a m s ps rest :
  (∀ ps rest, m = Some (ps, rest) → s = Py.concat ps +:+ rest) →
  Re.extend a m = Some (ps, rest) →
  String a s = Py.concat ps +:+ rest.
Proof.
  intros Hm H. destruct m as [[[|p ps'] rest']|]; [done| |done].
  simpl in H. injection H as <- <-.
  rewrite (Hm _ _ eq_refl). simpl. by rewrite !str_app_cons.
Qed.

Lemma star_sound greedy cls k : sound k → sound (Re.star greedy cls k).
Proof.
  intros Hk s. induction s as [|a s IH]; intros ps rest H; simpl in H.
  - by apply (stop_sound k).
  - destruct (cls a); [|by apply (stop_sound k)].
    destruct greedy.
    + destruct (Re.extend a _) as [m|] eqn:E.
      * injection H as ->. by eapply extend_sound.
      * by apply (stop_sound k).
    + destruct (Re.consume "" _) as [m|] eqn:E.
      * injection H as ->. by apply (stop_sound k).
      * by eapply extend_sound.
Qed.

Lemma alt_sound k s l ps rest :
  sound k → Re.alt k s l = Some (ps, rest) → s = Py.concat ps +:+ rest.
Proof.
  intros Hk. induction l as [|a l IH]; simpl; [done|].
  destruct (Py.strip_prefix a s) as [s'|] eqn:E; [|done].
  apply strip_prefix_Some in E as ->.
  destruct (Re.consume a (k s')) as [m|] eqn:E; [|done].
  intros [= ->]. by apply (consume_sound k).
Qed.

(** A match splits the text into the pieces it consumed and the rest. *)
Lemma match_here_sound r : sound (Re.match_here r).
Proof.
  induction r as [|[l|cls|greedy cls|alts] r IH]; intros s ps rest; simpl.
  - by intros [= <- <-].
  - destruct (Py.strip_prefix l s) as [s'|] eqn:E; [|done].
    apply strip_prefix_Some in E as ->. by apply consume_sound.
  - destruct s as [|a s]; [done|]. destruct (cls a); [|done].
    intros H. by apply consume_sound in H.
  - by apply star_sound.
  - by apply alt_sound.
Qed.

(** A pattern that begins with a non-empty literal consumes text. *)
Lemma match_here_lit_shorter l r s ps rest :
  l ≠ "" → Re.match_here (Re.Lit l :: r) s = Some (ps, rest) →
  (String.length rest < String.length s)%nat.
Proof.
  intros Hl H. simpl in H.
  destruct (Py.strip_prefix l s) as [s'|] eqn:E; [|done].
  apply strip_prefix_Some in E as ->.
  destruct (Re.match_here r s') as [[ps' rest']|] eqn:E; [|done].
  apply match_here_sound in E as ->. simpl in H. injection H as <- <-.
  rewrite !str_app_length. destruct l; [done|]. simpl. lia.
Qed.
End matcher.

(** ** [re.sub] *)

Lemma sub_from_0 r repl a s :
  Re.sub_from r repl 0 (String a s)
  = match Re.match_here r (String a s) with
    | Some (_, rest) =>
        match (String.length (String a s) - String.length rest)%nat with
        | S k => repl +:+ Re.sub_from r repl k s
        | O => String a (Re.sub_from r repl 0 s)
        end
    | None => String a (Re.sub_from r repl 0 s)
    end.
Proof. reflexivity. Qed.

Lemma sub_from_skip r repl t s :
  Re.sub_from r repl (String.length t) (t +:+ s) = Re.sub_from r repl 0 s.
Proof.
  induction t as [|a t IH]; [by destruct s|]. rewrite str_app_cons. simpl. apply IH.
Qed.

Section sub.
Variables (r : Re.pattern) (repl : string).

Lemma sub_absent s : NoMatch r s → Re.sub r repl s = s.
Proof using Type.
  unfold Re.sub. induction s as [|a s IH]; intros Hno; [done|].
  rewrite sub_from_0, (Hno "" (String a s) eq_refl), IH; [done|].
  intros pre s' ->. by apply (Hno (String a pre) s').
Qed.

Lemma sub_first pre m post ps :
  m ≠ "" →
  Re.match_here r (m +:+ post) = Some (ps, post) →
  (∀ pre' s', pre +:+ m +:+ post = pre' +:+ s' →
              is_Some (Re.match_here r s') →
              (String.length pre ≤ String.length pre')%nat) →
  Re.sub r repl (pre +:+ m +:+ post) = pre +:+ repl +:+ Re.sub r repl post.
Proof using Type.
  unfold Re.sub. intros Hm Hmatch. induction pre as [|a pre IH]; intros Hmin.
  - rewrite !str_app_empty_l. destruct m as [|a m']; [done|].
    rewrite str_app_cons, sub_from_0, <- str_app_cons, Hmatch.
    replace (String.length (String a m' +:+ post) - String.length post)%nat
      with (S (String.length m')) by (rewrite str_app_length; simpl; lia).
    by rewrite sub_from_skip.
  - rewrite !str_app_cons, sub_from_0, <- str_app_cons.
    destruct (Re.match_here r (String a pre +:+ m +:+ post)) as [[ps' q]|] eqn:E.
    + specialize (Hmin "" _ eq_refl (mk_is_Some _ _ E)). simpl in Hmin. lia.
    + rewrite IH; [done|]. intros pre' s' Heq Hs'.
      specialize (Hmin (String a pre') s').
      rewrite !str_app_cons, Heq in Hmin. specialize (Hmin eq_refl Hs').
      simpl in Hmin. lia.
Qed.

Lemma sub_once s pre m post :
  m ≠ "" → MatchOnce r s pre m post →
  Re.sub r repl s = pre +:+ repl +:+ post.
Proof using Type.
  intros Hm (-> & [ps Hmatch] & Huniq). rewrite (sub_first _ _ _ ps); [|done..|].
  - rewrite sub_absent; [done|]. intros p s' ->.
    destruct (Re.match_here r s') as [x|] eqn:E; [|done].
    specialize (Huniq (pre +:+ m +:+ p) s').
    rewrite !str_app_assoc in Huniq.
    specialize (Huniq eq_refl (mk_is_Some _ _ E)).
    apply (f_equal String.length) in Huniq. rewrite !str_app_length in Huniq.
    destruct Hm. apply length_zero. lia.
  - intros pre' s' Heq Hs'. by rewrite (Huniq _ _ Heq Hs').
Qed.
End sub.

(** ** Counting the places of a match, to decide [OccursOnce] and
    [MatchOnce] on a given text *)

Lemma positions_spec P i pre s :
  P s = true → (i + String.length pre)%nat ∈ positions P i (pre +:+ s).
Proof.
  revert i. induction pre as [|a pre IH]; intros i HP.
  - rewrite str_app_empty_l. simpl String.length. rewrite Nat.add_0_r.
    destruct s; simpl; rewrite HP; apply list_elem_of_here.
  - rewrite str_app_cons. simpl. apply elem_of_app. right.
    replace (i + S (String.length pre))%nat with (S i + String.length pre)%nat
      by lia.
    by apply IH.
Qed.

Lemma same_prefix pre pre' s s' :
  pre +:+ s = pre' +:+ s' → String.length pre = String.length pre' →
  pre = pre'.
Proof.
  revert pre'. induction pre as [|a pre IH]; intros [|b pre'] Heq Hlen;
    try done.
  rewrite !str_app_cons in Heq. injection Heq as -> Heq. f_equal.
  apply IH; [done|]. simpl in Hlen. lia.
Qed.

Lemma occurs_once_intro old s pre post :
  s = pre +:+ old +:+ post →
  positions (starts old) 0 s = [String.length pre] →
  OccursOnce old s pre post.
Proof.
  intros -> Hpos. split; [done|]. intros pre' post' Heq.
  assert (HP : starts old (old +:+ post') = true).
  { apply bool_decide_eq_true. rewrite strip_prefix_app. by eexists. }
  apply (positions_spec _ 0%nat pre') in HP.
  rewrite <- Heq, Hpos in HP. apply list_elem_of_singleton in HP.
  symmetry. by eapply same_prefix.
Qed.

Lemma not_occurs_intro old s : positions (starts old) 0 s = [] → ¬ Occurs old s.
Proof.
  intros Hpos (pre & post & ->).
  assert (HP : starts old (old +:+ post) = true).
  { apply bool_decide_eq_true. rewrite strip_prefix_app. by eexists. }
  apply (positions_spec _ 0%nat pre) in HP. rewrite Hpos in HP.
  by apply elem_of_nil in HP.
Qed.

Lemma no_match_intro r s : positions (matches r) 0 s = [] → NoMatch r s.
Proof.
  intros Hpos pre s' ->.
  destruct (Re.match_here r s') as [x|] eqn:E; [|done].
  assert (HP : matches r s' = true).
  { apply bool_decide_eq_true. rewrite E. by eexists. }
  apply (positions_spec _ 0%nat pre) in HP. rewrite Hpos in HP.
  by apply elem_of_nil in HP.
Qed.

Lemma match_once_intro r s pre m post ps :
  s = pre +:+ m +:+ post →
  Re.match_here r (m +:+ post) = Some (ps, post) →
  positions (matches r) 0 s = [String.length pre] →
  MatchOnce r s pre m post.
Proof.
  intros -> Hmatch Hpos. split; [done|]. split; [by exists ps|].
  intros pre' s' Heq Hs'.
  assert (HP : matches r s' = true) by by apply bool_decide_eq_true.
  apply (positions_spec _ 0%nat pre') in HP.
  rewrite <- Heq, Hpos in HP. apply list_elem_of_singleton in HP.
  symmetry. by eapply same_prefix.
Qed.

(** ** The Rewriter's substitutions *)

Section substitutions.
Import Rewriter.

Lemma old_handle_state_consumes m post ps :
  Re.match_here old_handle_state (m +:+ post) = Some (ps, post) → m ≠ "".
Proof.
  intros H%match_here_lit_shorter; [|done]. intros ->.
  rewrite str_app_empty_l in H. lia.
Qed.

(** C5 (as amended).  Each of the four substitutions of the Rewriter
    (import line, field declaration, initialization block, method body)
    leaves a text without its anchor unchanged, and inserts its text
    exactly once into a text where its anchor occurs (for the method
    body: where its pattern matches) at exactly one place; the script
    ends with success whatever the anchors, returning the text after
    deletion as it is when none of the four is there. *)
Theorem substitution_by_anchor (content : string) :
  (¬ Occurs import_anchor content → add_import content = content) ∧
  (∀ pre post, OccursOnce import_anchor content pre post →
               add_import content = pre +:+ import_text +:+ post) ∧
  (¬ Occurs field_anchor content → add_field content = content) ∧
  (∀ pre post, OccursOnce field_anchor content pre post →
               add_field content = pre +:+ field_text +:+ post) ∧
  (¬ Occurs nlp_router_init content → add_init content = content) ∧
  (∀ pre post, OccursOnce nlp_router_init content pre post →
               add_init content = pre +:+ state_router_init +:+ post) ∧
  (NoMatch old_handle_state content → delegate content = content) ∧
  (∀ pre m post, MatchOnce old_handle_state content pre m post →
                 delegate content = pre +:+ new_handle_state +:+ post) ∧
  (∀ listing source hs,
      handlers_to_remove listing = Ok hs →
      content = Py.concat (new_lines hs (Py.readlines source)) →
      ∃ out, run listing source = Ok out ∧
             (¬ Occurs import_anchor content →
              ¬ Occurs field_anchor content →
              ¬ Occurs nlp_router_init content →
              NoMatch old_handle_state content → out = content)).
Proof.
  repeat split.
  - apply replace_absent.
  - intros pre post. by apply replace_once.
  - apply replace_absent.
  - intros pre post. by apply replace_once.
  - apply replace_absent.
  - intros pre post. by apply replace_once.
  - apply sub_absent.
  - intros pre m post H. apply (sub_once _ _ _ pre m post); [|done].
    destruct H as (_ & [ps Hps] & _). by eapply old_handle_state_consumes.
  - intros listing source hs Hhs ->. unfold run. rewrite Hhs. simpl.
    eexists. split; [done|]. intros H1 H2 H3 H4. unfold substitute.
    unfold add_import at 1. rewrite (replace_absent _ _ _ H1).
    unfold add_field at 1. rewrite (replace_absent _ _ _ H2).
    unfold add_init at 1. rewrite (replace_absent _ _ _ H3).
    by apply sub_absent.
Qed.
End substitutions.

(** ** The listing *)

Section listing.
Import Listing.
Implicit Types (ls : list string) (acc hs : list descriptor).

Lemma int_raises s e : Py.int s = Raise e → e = ValueError.
Proof.
  unfold Py.int.
  destruct (match Py.drop_trailing _ _ with "" => _ | _ => _ end); congruence.
Qed.

Lemma read_line_blank line acc : Py.strip line = "" → read_line line acc = Ok acc.
Proof. unfold read_line. by intros ->. Qed.

Lemma read_line_raises line acc e : read_line line acc = Raise e → e = ValueError.
Proof.
  unfold read_line. destruct (String.eqb _ ""); [done|].
  destruct (Py.split _ _) as [|n [|s [|x [|? ?]]]]; try congruence.
  destruct (negb _); [|done].
  destruct (Py.int s) as [s'|e1] eqn:Es; simpl.
  - destruct (Py.int x) as [e'|e2] eqn:Ee; simpl; [done|].
    intros [= <-]. by eapply int_raises.
  - intros [= <-]. by eapply int_raises.
Qed.

Lemma read_line_malformed line acc :
  malformed line = true → read_line line acc = Raise ValueError.
Proof.
  unfold malformed, read_line, fields. destruct (String.eqb _ ""); [done|].
  destruct (Py.split _ _) as [|n [|s [|x [|? ?]]]]; try done. simpl.
  destruct (negb (String.eqb n exception)); [|done]. simpl.
  destruct (Py.int s) as [s'|e1] eqn:Es; simpl.
  - destruct (Py.int x) as [e'|e2] eqn:Ee; simpl; [done|].
    intros _. by rewrite (int_raises _ _ Ee).
  - intros _. by rewrite (int_raises _ _ Es).
Qed.

Lemma read_lines_raises ls acc e : read_lines ls acc = Raise e → e = ValueError.
Proof.
  revert acc. induction ls as [|line ls IH]; intros acc; simpl; [done|].
  destruct (read_line line acc) as [acc'|e'] eqn:E; simpl.
  - apply IH.
  - intros [= <-]. by eapply read_line_raises.
Qed.

Lemma read_lines_malformed ls1 line ls2 acc :
  malformed line = true →
  read_lines (ls1 ++ line :: ls2) acc = Raise ValueError.
Proof.
  intros Hbad. revert acc. induction ls1 as [|l ls1 IH]; intros acc; simpl.
  - by rewrite read_line_malformed.
  - destruct (read_line l acc) as [acc'|e] eqn:E; simpl; [apply IH|].
    by rewrite (read_line_raises _ _ _ E).
Qed.

Lemma read_lines_blank ls1 line ls2 acc :
  Py.strip line = "" →
  read_lines (ls1 ++ line :: ls2) acc = read_lines (ls1 ++ ls2) acc.
Proof.
  intros Hblank. revert acc. induction ls1 as [|l ls1 IH]; intros acc; simpl.
  - by rewrite read_line_blank.
  - destruct (read_line l acc) as [acc'|e] eqn:E; simpl; [apply IH|done].
Qed.

(** A listing without a malformed line is read to its end. *)
Lemma read_lines_well_formed ls acc :
  Forall (λ line, malformed line = false) ls →
  ∃ hs, read_lines ls acc = Ok hs.
Proof.
  intros Hls. revert acc. induction Hls as [|line ls Hline _ IH]; intros acc.
  - by exists acc.
  - simpl. assert (∃ acc', read_line line acc = Ok acc') as [acc' ->];
      [|apply IH].
    revert Hline. unfold malformed, read_line, fields.
    destruct (String.eqb _ ""); [by exists acc|].
    destruct (Py.split _ _) as [|n [|s [|e [|? ?]]]]; try done. simpl.
    destruct (negb (String.eqb n exception)); [|by exists acc]. simpl.
    destruct (Py.int s), (Py.int e); try done. by eexists.
Qed.

Lemma listed_cons line ls :
  listed (line :: ls)
  = if decide (Py.strip line ≠ "")
    then match record_of line with
         | Some rec => rec :: listed ls
         | None => listed ls
         end
    else listed ls.
Proof.
  unfold listed. rewrite filter_cons. case_decide; [|done].
  simpl. by destruct (record_of line).
Qed.

(** What a successful pass over the lines appends to [acc]. *)
Lemma read_lines_selected ls acc hs :
  read_lines ls acc = Ok hs →
  ∃ hs', hs = acc ++ hs' ∧ Forall2 Describes hs' (selected ls) ∧
         length (listed ls) = length (filter (λ line, Py.strip line ≠ "") ls).
Proof.
  revert acc. induction ls as [|line ls IH]; intros acc; simpl.
  - intros [= <-]. exists []. by rewrite app_nil_r.
  - unfold read_line, selected. fold (fields line).
    rewrite listed_cons, filter_cons. unfold record_of.
    destruct (String.eqb_spec (Py.strip line) "") as [Hb|Hb].
    { rewrite !decide_False by (by intros []). simpl. apply IH. }
    rewrite !decide_True by done.
    destruct (fields line) as [|n [|s [|e [|? ?]]]]; try done.
    destruct (String.eqb_spec n exception) as [Hn|Hn]; simpl.
    + rewrite filter_cons, decide_False by (by intros []).
      intros (hs' & -> & ? & ?)%IH. exists hs'. split_and!; [done..|].
      by f_equal.
    + rewrite filter_cons, decide_True by done.
      destruct (Py.int s) as [s'|] eqn:Es; simpl; [|done].
      destruct (Py.int e) as [e'|] eqn:Ee; simpl; [|done].
      intros (hs' & -> & ? & ?)%IH.
      exists ({| name := n; start := s'; end_ := e' |} :: hs').
      rewrite <- (assoc_L (++)). split_and!; [done| |by f_equal].
      by constructor.
Qed.

Lemma read_selected listing hs :
  read listing = Ok hs →
  Forall2 Describes hs (selected (Py.readlines listing)) ∧
  length (listed (Py.readlines listing))
  = length (filter (λ line, Py.strip line ≠ "") (Py.readlines listing)).
Proof. by intros (hs' & -> & ? & ?)%read_lines_selected. Qed.
End listing.

(** ** The Extractor *)

Section extractor.
Import Listing Extractor.
Implicit Types (lines : list string) (hs : list descriptor).

Lemma length_filter_compl {A} (P : A → Prop) `{!∀ x, Decision (P x)}
  (l : list A) :
  (length (filter P l) + length (filter (λ x, ¬ P x) l))%nat = length l.
Proof.
  induction l as [|x l IH]; [done|]. rewrite !filter_cons.
  destruct (decide (P x)).
  - rewrite decide_False by tauto. simpl. lia.
  - rewrite decide_True by done. simpl. lia.
Qed.

Lemma concat_app (l1 l2 : list string) :
  Py.concat (l1 ++ l2) = Py.concat l1 +:+ Py.concat l2.
Proof.
  induction l1 as [|x l1 IH]; simpl; [done|]. by rewrite IH, str_app_assoc.
Qed.

Lemma extract_blocks lines hs acc :
  Py.concat (extract lines hs acc) = Py.concat acc +:+ blocks lines hs.
Proof.
  revert acc. induction hs as [|h hs IH]; intros acc; simpl.
  - by rewrite str_app_empty_r.
  - rewrite IH. unfold block, blocks, method_text. simpl.
    rewrite !concat_app, !str_app_assoc. simpl.
    by rewrite str_app_empty_r.
Qed.

Lemma appended_blocks lines hs :
  appended lines hs = banner +:+ blocks lines hs +:+ closing.
Proof. unfold appended. by rewrite extract_blocks. Qed.

Lemma placeholder_nonempty : placeholder ≠ "".
Proof. done. Qed.

Lemma run_ok source listing target hs :
  handlers_to_extract listing = Ok hs →
  run source listing target
  = Ok (Py.replace target placeholder ""
        +:+ banner +:+ blocks (Py.readlines source) hs +:+ closing).
Proof. intros H. unfold run. rewrite H. simpl. by rewrite appended_blocks. Qed.

(** C6.  Given the source, a listing without a malformed line and a
    target that holds the placeholder, between [pre] and [post], the
    Extractor reads the listing as the descriptors [hs] of the listed
    records other than [handleStateMessage], in the listing's order, and
    writes the target with the placeholder taken out, then the banner,
    then the method of each descriptor of [hs] in order, each followed by
    a blank line, then the closing brace. *)
Theorem extractor_contract (source listing target pre post : string) :
  Forall (λ line, malformed line = false) (Py.readlines listing) →
  OccursOnce placeholder target pre post →
  ∃ hs, handlers_to_extract listing = Ok hs ∧
        Forall2 Describes hs (selected (Py.readlines listing)) ∧
        run source listing target
        = Ok (pre +:+ post
              +:+ banner +:+ blocks (Py.readlines source) hs +:+ closing).
Proof.
  intros Hls Honce.
  destruct (read_lines_well_formed _ [] Hls) as [hs Hhs].
  exists hs. split; [done|]. split; [by apply read_selected|].
  rewrite (run_ok _ _ _ hs Hhs).
  rewrite (replace_once _ _ placeholder_nonempty _ _ _ Honce).
  by rewrite str_app_empty_l, str_app_assoc.
Qed.

(** C7 (as amended).  When the placeholder is not in the target, the
    replacement changes nothing: the Extractor keeps the target's text
    as it is, and still writes the banner, the blocks and the closing
    brace after it. *)
Theorem extractor_without_placeholder (source listing target : string) hs :
  handlers_to_extract listing = Ok hs →
  ¬ Occurs placeholder target →
  Py.replace target placeholder "" = target ∧
  run source listing target
  = Ok (target +:+ banner +:+ blocks (Py.readlines source) hs +:+ closing).
Proof.
  intros H Hno. rewrite (run_ok _ _ _ hs H).
  by rewrite (replace_absent _ _ _ Hno).
Qed.

(** C1 (as amended).  A first run on a fresh target, which holds the
    placeholder at one place, puts in its stead one block per listed
    descriptor other than [handleStateMessage] (one less than the
    listing has records when it names the exception once), each followed
    by one blank line; a second run on the result, when that is free of
    the placeholder, keeps the result and writes the banner, the same
    blocks and the closing brace after it once more. *)
Theorem extractor_twice (source listing target : string) hs pre post :
  handlers_to_extract listing = Ok hs →
  OccursOnce placeholder target pre post →
  let added := banner +:+ blocks (Py.readlines source) hs +:+ closing in
  let once := pre +:+ post +:+ added in
  run source listing target = Ok once ∧
  length hs = length (selected (Py.readlines listing)) ∧
  (length (filter is_exception (listed (Py.readlines listing))) = 1%nat →
   length hs = (length (listed (Py.readlines listing)) - 1)%nat) ∧
  (¬ Occurs placeholder once →
   run source listing once = Ok (once +:+ added)).
Proof.
  intros H Honce added once.
  destruct (read_selected listing hs H) as [Hd _].
  split.
  { rewrite (run_ok _ _ _ hs H).
    rewrite (replace_once _ _ placeholder_nonempty _ _ _ Honce).
    by rewrite str_app_empty_l, str_app_assoc. }
  apply Forall2_length in Hd. split; [done|]. split.
  - intros Hexc. rewrite Hd. unfold selected.
    pose proof (length_filter_compl is_exception
                  (listed (Py.readlines listing))) as Hsum. lia.
  - intros Hno. rewrite (run_ok _ _ _ hs H).
    by rewrite (replace_absent _ _ _ Hno).
Qed.

(** C8 (as amended).  A listing with a malformed line (a non-blank line
    that has not three colon-separated fields or, its name being other
    than [handleStateMessage], a numeric field that is no integer)
    makes the Extractor and the Rewriter raise [ValueError]; a blank
    line is passed over. *)
Theorem malformed_listing_raises (listing : string) ls1 line ls2 :
  Py.readlines listing = ls1 ++ line :: ls2 →
  (malformed line = true →
   ∀ source target,
     Extractor.run source listing target = Raise ValueError ∧
     Rewriter.run listing source = Raise ValueError) ∧
  (Py.strip line = "" →
   Listing.read listing = Listing.read_lines (ls1 ++ ls2) []).
Proof.
  intros Hls. split.
  - intros Hbad source target.
    unfold Extractor.run, Rewriter.run, handlers_to_extract,
      Rewriter.handlers_to_remove, Listing.read.
    by rewrite Hls, read_lines_malformed.
  - intros Hblank. unfold Listing.read. rewrite Hls.
    by apply read_lines_blank.
Qed.
End extractor.

(** ** The Rewriter's deletion step *)

Section deletion.
Import Listing Rewriter.
Implicit Types (hs : list descriptor) (lines : list string) (s : gset Z).

Lemma elem_of_add_all (l : list Z) s i :
  i ∈ foldl (λ s i, {[ i ]} ∪ s) s l ↔ i ∈ s ∨ i ∈ l.
Proof.
  revert s. induction l as [|x l IH]; intros s; simpl.
  - rewrite elem_of_nil. tauto.
  - rewrite IH, elem_of_union, elem_of_singleton, elem_of_cons. tauto.
Qed.

Lemma elem_of_mark s h i : i ∈ mark s h ↔ i ∈ s ∨ in_range h i.
Proof.
  unfold mark, Py.range, in_range.
  rewrite elem_of_add_all, elem_of_seqZ. intuition lia.
Qed.

Lemma elem_of_marks hs s i : i ∈ foldl mark s hs ↔ i ∈ s ∨ covered hs i.
Proof.
  unfold covered. revert s. induction hs as [|h hs IH]; intros s; simpl.
  - rewrite Exists_nil. tauto.
  - rewrite IH, elem_of_mark, Exists_cons. tauto.
Qed.

Lemma elem_of_lines_to_remove hs i : i ∈ lines_to_remove hs ↔ covered hs i.
Proof.
  unfold lines_to_remove. rewrite elem_of_marks, elem_of_empty. tauto.
Qed.

Lemma seqZ_succ i (n : nat) :
  seqZ i (Z.of_nat (S n)) = i :: seqZ (i + 1) (Z.of_nat n).
Proof.
  rewrite seqZ_cons by lia. f_equal. f_equal; lia.
Qed.

Lemma keep_from_filter i s lines :
  keep_from i s lines
  = (filter (λ p, p.1 ∉ s) (zip (seqZ i (Z.of_nat (length lines))) lines)).*2.
Proof.
  revert i. induction lines as [|line lines IH]; intros i; [done|].
  cbn [length keep_from]. rewrite seqZ_succ. cbn [zip zip_with].
  rewrite filter_cons. cbn [fst]. rewrite IH.
  destruct (decide (i ∈ s)).
  - by rewrite decide_False by tauto.
  - by rewrite decide_True by done.
Qed.

Lemma keep_from_sublist i s lines : keep_from i s lines `sublist_of` lines.
Proof.
  revert i. induction lines as [|line lines IH]; intros i; simpl.
  - constructor.
  - destruct (decide (i ∈ s)); constructor; apply IH.
Qed.

Lemma keep_from_length i s lines :
  length (keep_from i s lines)
  = length (filter (λ j, j ∉ s) (seqZ i (Z.of_nat (length lines)))).
Proof.
  revert i. induction lines as [|line lines IH]; intros i; [done|].
  cbn [length keep_from]. rewrite seqZ_succ, filter_cons.
  destruct (decide (i ∈ s)).
  - rewrite decide_False by tauto. apply IH.
  - rewrite decide_True by done. simpl. by rewrite IH.
Qed.

(** C9.  The set [lines_to_remove] is the union of the listed ranges;
    the deletion step returns the lines whose indices lie outside that
    union, each as it was and in the original order, and so a sublist of
    the lines it was given (a line is removed once, however many ranges
    hold its index). *)
Theorem deletion_frame hs lines :
  (∀ i, i ∈ lines_to_remove hs ↔ covered hs i) ∧
  new_lines hs lines = surviving hs lines ∧
  new_lines hs lines `sublist_of` lines.
Proof.
  split; [apply elem_of_lines_to_remove|]. split.
  - unfold new_lines, surviving, enumerate. rewrite keep_from_filter.
    f_equal. apply list_filter_iff. intros [i line]. simpl.
    by rewrite elem_of_lines_to_remove.
  - apply keep_from_sublist.
Qed.

Lemma filter_split_length {A} (P Q R : A → Prop)
  `{!∀ x, Decision (P x), !∀ x, Decision (Q x), !∀ x, Decision (R x)}
  (l : list A) :
  (∀ x, x ∈ l → (P x ↔ Q x ∨ R x) ∧ ¬ (Q x ∧ R x)) →
  length (filter P l) = (length (filter Q l) + length (filter R l))%nat.
Proof.
  induction l as [|x l IH]; intros Hall; [done|].
  destruct (Hall x (list_elem_of_here _ _)) as [HP HQR].
  assert (IH' := IH (λ y Hy, Hall y (list_elem_of_further _ _ _ Hy))).
  rewrite !filter_cons.
  destruct (decide (P x)), (decide (Q x)), (decide (R x)); simpl;
    tauto || lia.
Qed.

Lemma filter_all_length {A} (P : A → Prop) `{!∀ x, Decision (P x)}
  (l : list A) :
  (∀ x, x ∈ l → P x) → length (filter P l) = length l.
Proof.
  induction l as [|x l IH]; intros Hall; [done|].
  rewrite filter_cons_True by (apply Hall; by left).
  simpl. rewrite IH; [done|]. intros y Hy. apply Hall. by right.
Qed.

Lemma interval_count a b i (k : nat) :
  length (filter (λ j, a ≤ j ≤ b) (seqZ i (Z.of_nat k)))
  = Z.to_nat (Z.min (b + 1) (i + Z.of_nat k) - Z.max a i).
Proof.
  revert i. induction k as [|k IH]; intros i.
  - simpl. lia.
  - specialize (IH (i + 1)). rewrite seqZ_succ, filter_cons.
    destruct (decide (a ≤ i ≤ b)); simpl; lia.
Qed.

Lemma uncovered_count hs (n : nat) :
  Forall (λ h, 0 ≤ start h ≤ end_ h ∧ end_ h < Z.of_nat n) hs →
  pairwise_disjoint hs →
  Z.of_nat (length (filter (λ i, ¬ covered hs i) (seqZ 0 (Z.of_nat n))))
  = Z.of_nat n - removed_count hs.
Proof.
  induction hs as [|h hs IH]; intros Hrange Hdisj.
  - rewrite filter_all_length, length_seqZ; [simpl; lia|].
    intros i _. unfold covered. rewrite Exists_nil. tauto.
  - apply Forall_cons in Hrange as [Hh Hrange]. destruct Hdisj as [Hh' Hdisj].
    specialize (IH Hrange Hdisj). cbn [removed_count].
    rewrite (filter_split_length (λ i, ¬ covered hs i)
               (λ i, ¬ covered (h :: hs) i) (in_range h)) in IH.
    + unfold in_range in IH at 2. rewrite interval_count in IH. lia.
    + intros i _. unfold covered. rewrite Exists_cons. split.
      * split; [destruct (decide (in_range h i)); tauto|].
        intros [Hq|Hr]; [tauto|]. rewrite Exists_exists.
        intros (h' & Hin & Hr'). rewrite Forall_forall in Hh'.
        specialize (Hh' h' Hin). unfold in_range in *. lia.
      * tauto.
Qed.

(** C2 (as amended).  When the removed descriptors have ranges inside
    the file, [0 <= start <= end < line count], that are pairwise
    disjoint, the number of lines after the deletion step is the number
    before it, less the sum of [end - start + 1] over the removed
    descriptors. *)
Theorem line_count_conservation hs lines :
  Forall (λ h, 0 ≤ start h ≤ end_ h ∧ end_ h < Z.of_nat (length lines)) hs →
  pairwise_disjoint hs →
  Z.of_nat (length (new_lines hs lines))
  = Z.of_nat (length lines) - removed_count hs.
Proof.
  intros Hrange Hdisj. unfold new_lines. rewrite keep_from_length.
  rewrite <- (uncovered_count hs (length lines) Hrange Hdisj).
  f_equal. f_equal. apply list_filter_iff. intros i.
  by rewrite elem_of_lines_to_remove.
Qed.
End deletion.

(** ** The Scanner *)

Section scanner.
Import Scanner.
Implicit Types (st : state) (m : current) (line : string) (i : Z).

(** C3.  In a method, a line that is no declaration adds its net brace
    delta to the counter; when, and only when, the counter is back to
    zero with an opening brace seen on the method's lines, the method is
    closed at that line: its descriptor is appended with the line's
    index as end, and tracking resets.  Otherwise nothing is appended
    and the method goes on with the new count. *)
Theorem tracked_line i line st m :
  tracking st m →
  is_declaration line = false →
  ∃ st', scan_line i line st = Ok st' ∧
    (closes st m line →
       handlers st' = handlers st ++ [closed_at (with_line m line) i] ∧
       current_method st' = None ∧ in_method st' = false ∧
       brace_count st' = 0) ∧
    (¬ closes st m line →
       handlers st' = handlers st ∧
       tracking st' (with_line m line) ∧
       brace_count st' = brace_count st + net_braces line).
Proof.
  intros [Hin Hcur] Hdecl. unfold scan_line, closes.
  unfold is_declaration in Hdecl. rewrite Hdecl, Hin, Hcur.
  destruct (Z.eqb_spec (brace_count st + net_braces line) 0) as [Ez|Ez];
    destruct (Py.contains "{" _) eqn:Eb; simpl; eexists;
    (split; [reflexivity|]); simpl.
  - split; [done|]. intros []. done.
  - split; [by intros [_ ?]|]. by intros _.
  - split; [by intros [? _]|]. by intros _.
  - split; [by intros [? _]|]. by intros _.
Qed.

Lemma scan_line_invariant i line st st' :
  scan_invariant i st → scan_line i line st = Ok st' →
  scan_invariant (i + 1) st'.
Proof.
  intros (Hi & Hall & Hsort & Hcur). unfold scan_line.
  assert (Hall' : Forall (λ h, 0 ≤ start h ∧ start h + 1 ≤ end_ h
                               ∧ end_ h < i + 1) (handlers st)).
  { apply (Forall_impl _ _ _ Hall). simpl. lia. }
  destruct (Re.match_ declaration_pattern line).
  { destruct (Re.search name_pattern line) as [ps|]; [|done].
    intros [= <-]. split_and!; simpl; [lia|done|done|].
    intros m [= <-]. simpl. split; [lia|].
    apply (Forall_impl _ _ _ Hall). simpl. lia. }
  assert (Hsame : scan_invariant (i + 1) st).
  { split_and!; [lia|done|done|].
    intros m' Hm'. destruct (Hcur m' Hm'). split; [lia|done]. }
  destruct (in_method st); [|by intros [= <-]].
  destruct (current_method st) as [m|] eqn:Em; [|by intros [= <-]].
  destruct (Hcur m eq_refl) as [Hm Hbefore].
  destruct (_ && _).
  - intros [= <-]. split_and!; simpl; [lia| | |done].
    + apply Forall_app. split; [done|].
      repeat constructor; simpl; lia.
    + apply StronglySorted_app_2; [|done|repeat constructor].
      intros h1 h2 Hh1 ->%list_elem_of_singleton. simpl.
      rewrite Forall_forall in Hall, Hbefore.
      specialize (Hall _ Hh1). specialize (Hbefore _ Hh1). lia.
  - intros [= <-]. split_and!; simpl; [lia|done|done|].
    intros m' [= <-]. simpl. split; [lia|done].
Qed.

Lemma scan_from_invariant ls i st st' :
  scan_invariant i st → scan_from i ls st = Ok st' →
  scan_invariant (i + Z.of_nat (length ls)) st'.
Proof.
  revert i st. induction ls as [|line ls IH]; intros i st Hinv; simpl.
  - intros [= <-]. by rewrite Z.add_0_r.
  - destruct (scan_line i line st) as [st1|] eqn:E; [|done]. simpl.
    intros H. apply (scan_line_invariant _ _ _ _ Hinv) in E.
    apply (IH _ _ E) in H.
    by replace (i + Z.of_nat (S (length ls))) with (i + 1 + Z.of_nat (length ls)) by lia.
Qed.

Lemma scan_invariant_initial : scan_invariant 0 initial.
Proof. split_and!; simpl; [done|constructor|constructor|done]. Qed.

Lemma scan_invariant_end content hs :
  scan content = Ok hs →
  ∃ st, scan_invariant (Z.of_nat (length (lines_of content))) st ∧
        handlers st = hs.
Proof.
  unfold scan. destruct (scan_from 0 _ initial) as [st|] eqn:E; [|done].
  intros [= <-]. exists st. split; [|done].
  by apply (scan_from_invariant _ _ _ _ scan_invariant_initial) in E.
Qed.

(** The scan ends without fault when every declaration line has a name
    that the search finds. *)
Lemma scan_from_total ls i st :
  Forall named ls → ∃ st', scan_from i ls st = Ok st'.
Proof.
  intros Hls. revert i st. induction Hls as [|line ls Hline _ IH]; intros i st.
  - by exists st.
  - simpl. assert (∃ st1, scan_line i line st = Ok st1) as [st1 ->];
      [|apply IH].
    unfold named, is_declaration in Hline. unfold scan_line.
    destruct (Re.match_ declaration_pattern line).
    + destruct (Hline eq_refl) as [ps ->]. by eexists.
    + destruct (in_method st), (current_method st); try by eexists.
      destruct (_ && _); by eexists.
Qed.

Lemma scan_total content :
  Forall named (lines_of content) → ∃ hs, scan content = Ok hs.
Proof.
  intros H. unfold scan.
  destruct (scan_from_total _ 0 initial H) as [st ->]. by eexists.
Qed.

(** C4.  Every descriptor of a scan has [0 <= start <= end < n], where
    [n] is the number of lines the Scanner went over, and the descriptors
    come in the order of their starts. *)
Theorem range_validity content hs :
  scan content = Ok hs →
  Forall (λ h, 0 ≤ start h ≤ end_ h
               ∧ end_ h < Z.of_nat (length (lines_of content))) hs ∧
  StronglySorted (λ h1 h2, start h1 ≤ start h2) hs.
Proof.
  intros (st & (_ & Hall & Hsort & _) & <-)%scan_invariant_end.
  split; [|done]. eapply Forall_impl; [done|]. simpl. lia.
Qed.

Lemma contains_app c (s t : string) :
  Py.contains c (s +:+ t) = Py.contains c s || Py.contains c t.
Proof.
  induction s as [|a s IH]; [done|]. rewrite str_app_cons. simpl.
  by rewrite IH, orb_assoc.
Qed.

(** A declaration line starts a method and appends nothing. *)
Lemma declaration_line i line st st1 :
  is_declaration line = true → scan_line i line st = Ok st1 →
  handlers st1 = handlers st ∧
  ∃ m, tracking st1 m ∧ c_start m = i ∧ c_lines m = [line] ∧
       brace_count st1 = net_braces line.
Proof.
  unfold is_declaration, scan_line. intros ->.
  destruct (Re.search name_pattern line) as [ps|]; [|done].
  intros [= <-]. split; [done|]. by eexists.
Qed.

(** A method whose braces open and balance on its declaration line is
    closed by the next line, if that is no declaration and has no net
    braces. *)
Lemma balanced_declaration_closes_next i line next st st1 :
  is_declaration line = true → scan_line i line st = Ok st1 →
  net_braces line = 0 → Py.contains "{" line = true →
  is_declaration next = false → net_braces next = 0 →
  ∃ st2 h, scan_line (i + 1) next st1 = Ok st2 ∧
           handlers st2 = handlers st ++ [h] ∧
           start h = i ∧ end_ h = i + 1.
Proof.
  intros Hdecl Hstep Hnet Hbrace Hnext Hnet'.
  destruct (declaration_line _ _ _ _ Hdecl Hstep)
    as (Hh & m & [Hin Hcur] & Hstart & Hlines & Hcount).
  unfold is_declaration in Hnext. unfold scan_line.
  rewrite Hnext, Hin, Hcur, Hcount, Hnet, Hnet', Hlines. simpl.
  rewrite contains_app, Hbrace. simpl. eexists _, _.
  split; [done|]. by rewrite Hh.
Qed.

(** C10 (as amended).  Every descriptor of a scan has [end >= start + 1]:
    a declaration line, whatever its braces, closes nothing and leaves the
    list of descriptors as it was, since the closing test is made on the
    lines after the declaration line only. *)
Theorem end_after_start content hs i line st st1 :
  (scan content = Ok hs → Forall (λ h, start h + 1 ≤ end_ h) hs) ∧
  (is_declaration line = true → scan_line i line st = Ok st1 →
   handlers st1 = handlers st ∧
   ∃ m, tracking st1 m ∧ c_start m = i ∧ brace_count st1 = net_braces line).
Proof.
  split.
  - intros (st' & (_ & Hall & _) & <-)%scan_invariant_end.
    apply (Forall_impl _ _ _ Hall). simpl. lia.
  - intros Hdecl Hstep.
    destruct (declaration_line _ _ _ _ Hdecl Hstep)
      as (Hh & m & Htr & Hstart & _ & Hcount).
    split; [done|]. by exists m.
Qed.

Lemma contains_concat_snoc c (ls : list string) line :
  Py.contains c (Py.concat (ls ++ [line]))
  = Py.contains c (Py.concat ls) || Py.contains c line.
Proof.
  induction ls as [|l ls IH]; simpl.
  - by rewrite str_app_empty_r.
  - by rewrite !contains_app, IH, orb_assoc.
Qed.

(** The lines of a method up to its closing line.  Scanning the lines
    [body] that follow the lines of [m], none of which is a declaration,
    closes the method at the first of them where [first_close] says so,
    and at no earlier one. *)
Lemma scan_until_close body i st m k :
  tracking st m →
  Forall (λ line, is_declaration line = false) body →
  first_close (brace_count st) (Py.contains "{" (Py.concat (c_lines m))) body
  = Some k →
  ∃ st', scan_from i (take (S k) body) st = Ok st' ∧
         handlers st'
         = handlers st ++
           [closed_at {| c_name := c_name m; c_start := c_start m;
                         c_lines := c_lines m ++ take (S k) body |}
                      (i + Z.of_nat k)] ∧
         current_method st' = None ∧ in_method st' = false.
Proof.
  revert i st m k. induction body as [|line body IH];
    intros i st m k [Hin Hcur] Hbody; [done|].
  apply Forall_cons in Hbody as [Hline Hbody]. cbn [first_close].
  unfold is_declaration in Hline.
  cbn [take scan_from]. unfold scan_line at 1.
  rewrite Hline, Hin, Hcur, contains_concat_snoc.
  destruct (_ && _) eqn:E.
  - intros [= <-]. simpl. eexists. split; [done|]. simpl.
    by rewrite Z.add_0_r.
  - destruct (first_close _ _ body) as [k'|] eqn:Ek; [|done].
    intros [= <-]. simpl.
    match goal with
    | |- context [scan_from (i + 1) _ ?st1] =>
        destruct (IH (i + 1) st1 (with_line m line) k')
          as (st' & Hrun & Hh & Hc);
        [by split|done|simpl; by rewrite contains_concat_snoc|]
    end.
    exists st'. split; [exact Hrun|]. split; [|done].
    rewrite Hh. simpl. unfold closed_at. simpl.
    rewrite <- !(assoc_L (++)). simpl.
    by replace (i + 1 + Z.of_nat k') with (i + Z.pos (Pos.of_succ_nat k')) by lia.
Qed.

End scanner.

(** ** The scripts on a small router *)

(** The three steps in a row on the small router. *)
Example sample_scan :
  Scanner.handler_info <$> Scanner.scan sample_source = Ok sample_listing.
Proof. vm_compute. reflexivity. Qed.

Example sample_rewrite :
  Rewriter.run sample_listing sample_source
  = Ok "import { NLPRouter } from '../routing/NLPRouter.js';
import { StateRouter } from '../routing/StateRouter.js';
class MessageRouter {

  private async handleStateMessage(phone: string): Promise<void> {
    switch (state) {}
  }
}".
Proof. vm_compute. reflexivity. Qed.

Section sample_runs.
Import Listing.

Lemma sample_read : Listing.read sample_listing = Ok sample_descriptors.
Proof. vm_compute. reflexivity. Qed.

Lemma sample_target_once :
  OccursOnce Extractor.placeholder sample_target sample_pre sample_post.
Proof. apply occurs_once_intro; vm_compute; reflexivity. Qed.

Lemma extractor_twice_witness :
  Extractor.handlers_to_extract sample_listing = Ok sample_descriptors ∧
  OccursOnce Extractor.placeholder sample_target sample_pre sample_post ∧
  ∃ once,
    Extractor.run sample_source sample_listing sample_target = Ok once ∧
    length sample_descriptors
    = (length (listed (Py.readlines sample_listing)) - 1)%nat ∧
    Extractor.run sample_source sample_listing once
    = Ok (once +:+ Extractor.banner
          +:+ blocks (Py.readlines sample_source) sample_descriptors
          +:+ Extractor.closing).
Proof.
  split; [exact sample_read|]. split; [exact sample_target_once|].
  pose proof (extractor_twice sample_source sample_listing sample_target
                sample_descriptors sample_pre sample_post
                sample_read sample_target_once) as H.
  cbv zeta in H. destruct H as (Hrun & _ & Hone & Hsecond).
  eexists. split; [exact Hrun|]. split.
  - apply Hone. vm_compute. reflexivity.
  - apply Hsecond. apply not_occurs_intro. vm_compute. reflexivity.
Defined.

(** C1, as stated, fails: a second run on the placeholder-free result
    of the first changes the target. *)
Lemma second_run_changes_target :
  ∃ once twice,
    Extractor.run sample_source sample_listing sample_target = Ok once ∧
    ¬ Occurs Extractor.placeholder once ∧
    Extractor.run sample_source sample_listing once = Ok twice ∧
    twice ≠ once.
Proof.
  eexists _, _. split; [vm_compute; reflexivity|]. split.
  - apply not_occurs_intro. vm_compute. reflexivity.
  - split; [vm_compute; reflexivity|]. intros H.
    apply (f_equal String.length) in H. vm_compute in H. lia.
Qed.

Lemma line_count_conservation_witness :
  Forall (λ h, 0 ≤ start h ≤ end_ h
               ∧ end_ h < Z.of_nat (length (Py.readlines sample_source)))
    sample_descriptors ∧
  pairwise_disjoint sample_descriptors ∧
  Z.of_nat (length (Rewriter.new_lines sample_descriptors
                      (Py.readlines sample_source))) = 10 - 3.
Proof.
  assert (H1 : Forall (λ h, 0 ≤ start h ≤ end_ h
                 ∧ end_ h < Z.of_nat (length (Py.readlines sample_source)))
                 sample_descriptors).
  { repeat constructor; vm_compute; congruence. }
  assert (H2 : pairwise_disjoint sample_descriptors).
  { repeat constructor. }
  split; [exact H1|]. split; [exact H2|].
  rewrite (line_count_conservation _ _ H1 H2). vm_compute. reflexivity.
Defined.

(** C2, as stated, fails: a range listed twice is counted twice in the
    sum and removed once from the file. *)
Lemma repeated_range_removed_once :
  Rewriter.handlers_to_remove doubled_listing = Ok doubled_descriptors ∧
  Z.of_nat (length (Rewriter.new_lines doubled_descriptors
                      (Py.readlines sample_source))) = 7 ∧
  Z.of_nat (length (Py.readlines sample_source))
  - removed_count doubled_descriptors = 4 ∧
  Z.of_nat (length (Rewriter.new_lines doubled_descriptors
                      (Py.readlines sample_source)))
  ≠ Z.of_nat (length (Py.readlines sample_source))
    - removed_count doubled_descriptors.
Proof. split_and!; vm_compute; congruence. Qed.

Lemma tracked_line_witness :
  tracking sample_state
    {| Scanner.c_name := "handleEventFoo"; Scanner.c_start := 2;
       Scanner.c_lines :=
         ["  private async handleEventFoo(phone: string): Promise<void> {"] |} ∧
  is_declaration "  }" = false ∧
  ∃ st', Scanner.scan_line 3 "  }" sample_state = Ok st' ∧
         length (Scanner.handlers st') = 1%nat ∧
         Scanner.current_method st' = None.
Proof.
  split; [by split|]. split; [vm_compute; reflexivity|].
  destruct (tracked_line 3 "  }" sample_state _
              (conj eq_refl eq_refl) eq_refl)
    as (st' & Hstep & Hclose & _).
  exists st'. split; [exact Hstep|].
  destruct Hclose as (Hh & Hc & _); [split; vm_compute; reflexivity|].
  split; [by rewrite Hh|exact Hc].
Defined.

Lemma range_validity_witness :
  ∃ hs, Scanner.scan sample_source = Ok hs ∧
        Forall (λ h, 0 ≤ Scanner.start h ≤ Scanner.end_ h
                     ∧ Scanner.end_ h
                       < Z.of_nat (length (Scanner.lines_of sample_source)))
          hs ∧
        StronglySorted (λ h1 h2, Scanner.start h1 ≤ Scanner.start h2) hs.
Proof.
  destruct (Scanner.scan sample_source) as [hs|e] eqn:E;
    [|vm_compute in E; discriminate E].
  exists hs. split; [reflexivity|]. exact (range_validity sample_source hs E).
Defined.

Lemma substitution_by_anchor_witness :
  Rewriter.add_import sample_content
  = before 0 sample_content +:+ Rewriter.import_text
    +:+ after 52 sample_content ∧
  Rewriter.add_field sample_content
  = before 75 sample_content +:+ Rewriter.field_text
    +:+ after 106 sample_content ∧
  Rewriter.add_init sample_content
  = before 125 sample_content +:+ Rewriter.state_router_init
    +:+ after 182 sample_content ∧
  Rewriter.delegate sample_content
  = before 187 sample_content +:+ Rewriter.new_handle_state
    +:+ after 410 sample_content ∧
  Rewriter.add_init sample_source = sample_source ∧
  Rewriter.delegate sample_source = sample_source.
Proof.
  destruct (substitution_by_anchor sample_content)
    as (_ & H1 & _ & H2 & _ & H3 & _ & H4 & _).
  destruct (substitution_by_anchor sample_source)
    as (_ & _ & _ & _ & H5 & _ & H6 & _).
  split_and!.
  - apply H1. apply occurs_once_intro; vm_compute; reflexivity.
  - apply H2. apply occurs_once_intro; vm_compute; reflexivity.
  - apply H3. apply occurs_once_intro; vm_compute; reflexivity.
  - apply (H4 _ (String.substring 187 223 sample_content)).
    eapply match_once_intro; vm_compute; reflexivity.
  - apply H5. apply not_occurs_intro. vm_compute. reflexivity.
  - apply H6. apply no_match_intro. vm_compute. reflexivity.
Defined.

(** C5, as stated, fails: an anchor that is there twice receives the
    insertion twice. *)
Lemma import_inserted_twice :
  positions (starts Rewriter.import_anchor) 0 twice_imported = [0; 53]%nat ∧
  Rewriter.run "" twice_imported
  = Ok (Rewriter.import_text +:+ Py.newline
        +:+ Rewriter.import_text +:+ Py.newline).
Proof. split; vm_compute; reflexivity. Qed.

Lemma extractor_contract_witness :
  Forall (λ line, malformed line = false) (Py.readlines sample_listing) ∧
  OccursOnce Extractor.placeholder sample_target sample_pre sample_post ∧
  Extractor.run sample_source sample_listing sample_target
  = Ok "class StateRouter {


  // ========== EVENT HANDLERS - FULL IMPLEMENTATION ==========

  private async handleEventFoo(phone: string): Promise<void> {
    await this.foo(phone);
  }

}
".
Proof.
  assert (H : Forall (λ line, malformed line = false)
                (Py.readlines sample_listing)).
  { apply Forall_forall. intros line Hin. vm_compute in Hin.
    repeat (apply elem_of_cons in Hin as [->|Hin]; [vm_compute; reflexivity|]).
    by apply elem_of_nil in Hin. }
  split; [exact H|]. split; [exact sample_target_once|].
  destruct (extractor_contract sample_source sample_listing sample_target
              sample_pre sample_post H sample_target_once)
    as (hs & Hhs & _ & Hrun).
  assert (hs = sample_descriptors) as ->.
  { pose proof sample_read as Hread.
    unfold Extractor.handlers_to_extract in Hhs. congruence. }
  rewrite Hrun. vm_compute. reflexivity.
Defined.

Lemma extractor_without_placeholder_witness :
  Extractor.handlers_to_extract sample_listing = Ok sample_descriptors ∧
  ¬ Occurs Extractor.placeholder bare_target ∧
  Extractor.run sample_source sample_listing bare_target
  = Ok (bare_target +:+ Extractor.banner
        +:+ blocks (Py.readlines sample_source) sample_descriptors
        +:+ Extractor.closing).
Proof.
  assert (H : ¬ Occurs Extractor.placeholder bare_target).
  { apply not_occurs_intro. vm_compute. reflexivity. }
  split; [exact sample_read|]. split; [exact H|].
  exact (proj2 (extractor_without_placeholder sample_source sample_listing
                  bare_target sample_descriptors sample_read H)).
Defined.

(** C7, as stated, fails: without the placeholder the target is still
    written, and changes. *)
Lemma missing_placeholder_changes_target :
  ¬ Occurs Extractor.placeholder bare_target ∧
  ∃ out, Extractor.run sample_source sample_listing bare_target = Ok out ∧
         out ≠ bare_target.
Proof.
  split; [apply not_occurs_intro; vm_compute; reflexivity|].
  eexists. split; [vm_compute; reflexivity|]. intros H.
  apply (f_equal String.length) in H. vm_compute in H. lia.
Qed.

Lemma malformed_listing_raises_witness :
  Py.readlines short_listing
  = ["handleEventFoo:2:4
"; "
"] ++ "handleTaskBar:7
" :: [] ∧
  malformed "handleTaskBar:7
" = true ∧
  Extractor.run sample_source short_listing sample_target = Raise ValueError ∧
  Rewriter.run short_listing sample_source = Raise ValueError.
Proof.
  assert (H1 : Py.readlines short_listing
               = ["handleEventFoo:2:4
"; "
"] ++ "handleTaskBar:7
" :: []) by (vm_compute; reflexivity).
  split; [exact H1|]. split; [vm_compute; reflexivity|].
  exact (proj1 (malformed_listing_raises short_listing _ _ _ H1) eq_refl
           sample_source sample_target).
Defined.

(** C8, as stated, fails: the record of the exception is not converted,
    so that its fields may be anything and the scripts go on. *)
Lemma exception_record_not_converted :
  unparseable "handleStateMessage:first:last
" = true ∧
  Py.readlines unnumbered_listing = ["handleStateMessage:first:last
"] ∧
  is_ok (Extractor.run sample_source unnumbered_listing sample_target) = true ∧
  is_ok (Rewriter.run unnumbered_listing sample_source) = true.
Proof. split_and!; vm_compute; reflexivity. Qed.

Lemma end_after_start_witness :
  is_declaration one_line_method = true ∧
  (∃ hs, Scanner.scan sample_source = Ok hs ∧
         Forall (λ h, Scanner.start h + 1 ≤ Scanner.end_ h) hs) ∧
  ∃ st1, Scanner.scan_line 0 one_line_method Scanner.initial = Ok st1 ∧
         Scanner.handlers st1 = [].
Proof.
  split; [vm_compute; reflexivity|]. split.
  - destruct (Scanner.scan sample_source) as [hs|e] eqn:E;
      [|vm_compute in E; discriminate E].
    exists hs. split; [reflexivity|].
    exact (proj1 (end_after_start sample_source hs 0 "" Scanner.initial
                    Scanner.initial) E).
  - destruct (Scanner.scan_line 0 one_line_method Scanner.initial)
      as [st1|e] eqn:E; [|vm_compute in E; discriminate E].
    exists st1. split; [reflexivity|].
    exact (proj1 (proj2 (end_after_start "" [] 0 one_line_method
                         Scanner.initial st1) eq_refl E)).
Defined.

(** C10, as stated, fails: a method whose braces open and balance on its
    declaration line is recorded, with the next line as its end. *)
Lemma balanced_declaration_recorded :
  is_declaration one_line_method = true ∧
  Scanner.net_braces one_line_method = 0 ∧
  Py.contains "{" one_line_method = true ∧
  Scanner.scan (one_line_method +:+ Py.newline)
  = Ok [ {| Scanner.name := "handleEventFoo"; Scanner.start := 0;
            Scanner.lines := [one_line_method; ""];
            Scanner.full_text := one_line_method +:+ Py.newline;
            Scanner.end_ := 1 |} ].
Proof. split_and!; vm_compute; reflexivity. Qed.
End sample_runs.

(** * Further properties *)

(** ** Texts and their lines *)

Section round_trips.
Implicit Types (s t : string) (a c : ascii).

(** Joining the lines that [readlines] returns gives the text back. *)
Lemma concat_readlines s : Py.concat (Py.readlines s) = s.
Proof.
  induction s as [|a s IH]; [done|]. simpl.
  destruct (Ascii.eqb a "010"); [simpl; by rewrite IH|].
  destruct (Py.readlines s) as [|h t]; simpl in *.
  - by rewrite <- IH.
  - by rewrite str_app_cons, IH.
Qed.

Lemma split_nonempty c s : Py.split c s ≠ [].
Proof.
  destruct s as [|a s]; [done|]. simpl.
  destruct (Ascii.eqb a c); [done|]. by destruct (Py.split c s).
Qed.

Lemma join_cons sep x y l :
  Py.join sep (x :: y :: l) = x +:+ sep +:+ Py.join sep (y :: l).
Proof. reflexivity. Qed.

(** Joining the pieces of [split] with the separator gives the text back. *)
Lemma join_split c s : Py.join (String c "") (Py.split c s) = s.
Proof.
  induction s as [|a s IH]; [done|]. simpl.
  pose proof (split_nonempty c s) as Hne.
  destruct (Ascii.eqb_spec a c) as [->|Hac].
  - destruct (Py.split c s) as [|h t]; [done|].
    by rewrite join_cons, IH.
  - destruct (Py.split c s) as [|h [|h' t]]; [done|..].
    + simpl in *. by rewrite IH.
    + rewrite join_cons in *. by rewrite str_app_cons, IH.
Qed.
End round_trips.

(** ** Numbers and numerals *)

Section numerals.
Implicit Types (s t : string) (a : ascii) (x : N) (z : Z).

Lemma is_nat_pretty_N_char x :
  (x < 10)%N → Ascii.is_nat (pretty_N_char x) = Some (N.to_nat x).
Proof.
  intros Hx.
  assert (x = 0 ∨ x = 1 ∨ x = 2 ∨ x = 3 ∨ x = 4 ∨ x = 5 ∨ x = 6 ∨ x = 7
          ∨ x = 8 ∨ x = 9)%N as Hcases by lia.
  by repeat destruct Hcases as [->|Hcases]; [..|subst].
Qed.

Lemma numeral_pretty_N_go x s :
  numeral 0 (pretty_N_go x s) = numeral (Z.of_N x) s.
Proof.
  revert s. induction (N.lt_wf_0 x) as [x _ IH]; intros s.
  destruct (decide (x = 0%N)) as [->|Hx]; [done|].
  rewrite pretty_N_go_step by lia. rewrite IH by (apply N.div_lt; lia).
  simpl. rewrite is_nat_pretty_N_char by (apply N.mod_lt; lia).
  f_equal. pose proof (N.div_mod x 10). lia.
Qed.

Lemma all_digits_pretty_N_go x s :
  all_chars is_digit s = true → all_chars is_digit (pretty_N_go x s) = true.
Proof.
  revert s. induction (N.lt_wf_0 x) as [x _ IH]; intros s Hs.
  destruct (decide (x = 0%N)) as [->|Hx]; [done|].
  rewrite pretty_N_go_step by lia. apply IH; [apply N.div_lt; lia|].
  simpl. rewrite Hs, andb_true_r. unfold is_digit.
  rewrite is_nat_pretty_N_char by (apply N.mod_lt; lia). done.
Qed.

Lemma pretty_N_go_nonempty x s : (0 < x)%N ∨ s ≠ "" → pretty_N_go x s ≠ "".
Proof.
  revert s. induction (N.lt_wf_0 x) as [x _ IH]; intros s Hs.
  destruct (decide (x = 0%N)) as [->|Hx].
  - rewrite pretty_N_go_0. destruct Hs; [lia|done].
  - rewrite pretty_N_go_step by lia. apply IH; [apply N.div_lt; lia|].
    by right.
Qed.

(** On a numeral, [digits] returns its value. *)
Lemma digits_numeral s acc (b : bool) :
  all_chars is_digit s = true → s ≠ "" ∨ b = true →
  Py.digits acc b s = Some (numeral acc s).
Proof.
  revert acc b. induction s as [|a s IH]; intros acc b Hs Hb.
  - by destruct Hb as [ ? | -> ].
  - simpl in *. apply andb_true_iff in Hs as [Ha Hs].
    unfold is_digit in Ha. apply bool_decide_eq_true in Ha as [d Hd].
    rewrite Hd. apply IH; [done|by right].
Qed.

Lemma drop_leading_none cls s :
  all_chars (λ a, negb (cls a)) s = true → Py.drop_leading cls s = s.
Proof.
  destruct s as [|a s]; [done|]. simpl.
  intros [Ha _]%andb_true_iff. by destruct (cls a).
Qed.

Lemma drop_trailing_none cls s :
  all_chars (λ a, negb (cls a)) s = true → Py.drop_trailing cls s = s.
Proof.
  induction s as [|a s IH]; [done|]. simpl.
  intros [Ha Hs]%andb_true_iff. rewrite IH by done.
  destruct s; [|done]. by destruct (cls a).
Qed.

Lemma all_chars_impl (P Q : ascii → bool) s :
  (∀ a, P a = true → Q a = true) →
  all_chars P s = true → all_chars Q s = true.
Proof.
  intros HPQ. induction s as [|a s IH]; [done|]. simpl.
  intros [Ha Hs]%andb_true_iff. by rewrite (HPQ a Ha), IH.
Qed.

Lemma digit_cases a :
  is_digit a = true →
  a ∈ ["0"; "1"; "2"; "3"; "4"; "5"; "6"; "7"; "8"; "9"]%char.
Proof.
  unfold is_digit. intros [d Hd]%bool_decide_eq_true. revert Hd.
  destruct a as [[] [] [] [] [] [] [] []]; simpl; intros Hd;
    try discriminate Hd;
    repeat first [apply list_elem_of_here | apply list_elem_of_further].
Qed.

Lemma digit_not_int_space a :
  is_digit a = true → negb (Py.is_int_space a) = true.
Proof.
  intros Ha%digit_cases.
  repeat (apply elem_of_cons in Ha as [->|Ha]; [done|]).
  by apply elem_of_nil in Ha.
Qed.

(** [int] on an unsigned numeral. *)
Lemma int_numeral s :
  all_chars is_digit s = true → s ≠ "" → Py.int s = Ok (numeral 0 s).
Proof.
  intros Hs Hne. unfold Py.int.
  assert (Hsp : all_chars (λ a, negb (Py.is_int_space a)) s = true)
    by (eapply all_chars_impl; [apply digit_not_int_space|done]).
  rewrite (drop_leading_none _ s Hsp), (drop_trailing_none _ s Hsp).
  destruct s as [|a s']; [done|].
  assert (Ha : is_digit a = true) by by apply andb_true_iff in Hs as [? _].
  apply digit_cases in Ha.
  assert (Hd := digits_numeral (String a s') 0 false Hs (or_introl Hne)).
  repeat (apply elem_of_cons in Ha as [->|Ha]; [by rewrite Hd|]).
  by apply elem_of_nil in Ha.
Qed.

Lemma pretty_N_numeral x :
  all_chars is_digit (pretty x) = true ∧ pretty x ≠ "" ∧
  numeral 0 (pretty x) = Z.of_N x.
Proof.
  unfold pretty, pretty_N. case_decide as Hx; [by subst|].
  split; [by apply all_digits_pretty_N_go|].
  split; [apply pretty_N_go_nonempty; lia|].
  by rewrite numeral_pretty_N_go.
Qed.

(** The decimal text of an integer is read back as that integer. *)
Lemma int_of_pretty z : Py.int (pretty z) = Ok z.
Proof.
  destruct z as [|p|p].
  - vm_compute. reflexivity.
  - destruct (pretty_N_numeral (N.pos p)) as (Hd & Hne & Hv).
    change (pretty (Z.pos p)) with (pretty (N.pos p)).
    rewrite int_numeral by done. by rewrite Hv.
  - destruct (pretty_N_numeral (N.pos p)) as (Hd & Hne & Hv).
    change (pretty (Z.neg p)) with ("-" +:+ pretty (N.pos p)).
    unfold Py.int.
    assert (Hsp : all_chars (λ a, negb (Py.is_int_space a))
                    ("-" +:+ pretty (N.pos p)) = true).
    { rewrite str_app_cons. simpl.
      eapply all_chars_impl; [apply digit_not_int_space|done]. }
    rewrite (drop_leading_none _ _ Hsp), (drop_trailing_none _ _ Hsp).
    rewrite str_app_cons, str_app_empty_l.
    rewrite (digits_numeral _ 0 false Hd (or_introl Hne)), Hv. done.
Qed.

End numerals.

(** ** The Scanner's trace *)

Section trace.
Import Scanner.
Implicit Types (st : state) (m : current) (line : string)
  (read rest ls body : list string).

Lemma sum_braces_snoc ls line :
  sum_braces (ls ++ [line]) = sum_braces ls + net_braces line.
Proof. induction ls as [|l ls IH]; simpl; [lia|]. rewrite IH. lia. Qed.

Lemma first_close_snoc body line count (seen : bool) :
  first_close count seen (body ++ [line])
  = match first_close count seen body with
    | Some k => Some k
    | None =>
        if (count + sum_braces body + net_braces line =? 0)
           && (seen || Py.contains "{" (Py.concat body)
               || Py.contains "{" line)
        then Some (length body) else None
    end.
Proof.
  revert count seen. induction body as [|l body IH]; intros count seen; simpl.
  - rewrite Z.add_0_r, orb_false_r. by destruct (_ && _).
  - destruct (_ && _); [done|]. rewrite IH.
    destruct (first_close _ _ body); [done|].
    rewrite contains_app, !orb_assoc.
    replace (count + net_braces l + sum_braces body + net_braces line)
      with (count + (net_braces l + sum_braces body) + net_braces line)
      by lia.
    by destruct (_ && _).
Qed.

Lemma close_point_snoc decl body line :
  close_point (decl :: body ++ [line])
  = match close_point (decl :: body) with
    | Some k => Some k
    | None =>
        if (sum_braces (decl :: body) + net_braces line =? 0)
           && Py.contains "{" (Py.concat ((decl :: body) ++ [line]))
        then Some (length body) else None
    end.
Proof.
  unfold close_point. rewrite first_close_snoc.
  destruct (first_close _ _ body); [done|].
  rewrite contains_concat_snoc. simpl. by rewrite contains_app.
Qed.

Lemma recorded_more read rest h : recorded read h → recorded (read ++ rest) h.
Proof.
  intros (s & e & Hs & He & Hse & Hl & Hft & Hop & Hsum & Hbr & Hcp).
  exists s, e. split_and!; try done; try lia.
  - rewrite length_app. lia.
  - rewrite drop_app_le by lia.
    rewrite take_app_le; [done|]. rewrite length_drop. lia.
Qed.

Lemma scan_line_trace read line st st' :
  scan_trace read st →
  scan_line (Z.of_nat (length read)) line st = Ok st' →
  scan_trace (read ++ [line]) st'.
Proof.
  intros (Hall & Hsort & Hcur). unfold scan_line.
  assert (Hall' : Forall (recorded (read ++ [line])) (handlers st)).
  { apply (Forall_impl _ _ _ Hall). intros h. apply recorded_more. }
  destruct (Re.match_ declaration_pattern line) eqn:Hdecl.
  { destruct (Re.search name_pattern line) as [ps|] eqn:Hname; [|done].
    intros [= <-]. split; [done|]. split; [done|]. unfold under_way. simpl.
    split; [done|]. exists (length read).
    split_and!; try done.
    - rewrite length_app. simpl. lia.
    - by rewrite drop_app_length.
    - by exists line, [], ps.
    - simpl. lia.
    - apply (Forall_impl _ _ _ Hall).
      intros h (s & e & _ & -> & ? & _). lia. }
  unfold under_way in Hcur.
  destruct (current_method st) as [m|] eqn:Em; cycle 1.
  { destruct (in_method st); intros [= <-];
      (split; [done|]; split; [done|]); unfold under_way; by rewrite Em. }
  destruct Hcur as (-> & s & Hs & Hlt & Hlines & Hopen & Hcount & Hnot & Hends).
  destruct Hopen as (decl & body & ps & Hdb & Hd & Hname & Hnm & Hbody).
  assert (Hlines' : c_lines m ++ [line] = drop s (read ++ [line])).
  { rewrite Hlines, drop_app_le by lia. done. }
  assert (Hopen' : opens (c_lines m ++ [line]) (c_name m)).
  { exists decl, (body ++ [line]), ps. rewrite Hdb.
    split_and!; try done. apply Forall_app. split; [done|].
    by constructor. }
  assert (Hlen : length body = (length read - s - 1)%nat).
  { apply (f_equal length) in Hlines. rewrite Hdb, length_drop in Hlines.
    simpl in Hlines. lia. }
  assert (Hpoint := close_point_snoc decl body line).
  change (decl :: body ++ [line]) with ((decl :: body) ++ [line]) in Hpoint.
  rewrite <- Hdb, Hnot, <- Hcount in Hpoint.
  destruct (_ && _) eqn:Hclose; intros [= <-].
  - apply andb_true_iff in Hclose as [Hz%Z.eqb_eq Hbrace].
    split; [|split]; simpl.
    + apply Forall_app. split; [done|]. constructor; [|done].
      exists s, (length read). simpl.
      split_and!; try done; try lia.
      * rewrite length_app. simpl. lia.
      * rewrite Hlines'. rewrite take_ge; [done|].
        rewrite length_drop, length_app. simpl. lia.
      * by rewrite sum_braces_snoc, <- Hcount.
      * by rewrite Hpoint, Hlen.
    + apply StronglySorted_app_2; [|done|repeat constructor].
      intros h1 h2 Hh1 ->%list_elem_of_singleton. simpl.
      rewrite Forall_forall in Hends. by apply Hends.
    + done.
  - split; [done|]. split; [done|]. unfold under_way. simpl.
    split; [done|]. exists s.
    split_and!; try done.
    + rewrite length_app. simpl. lia.
    + by rewrite sum_braces_snoc, Hcount.
Qed.

Lemma scan_from_trace rest read st st' :
  scan_trace read st →
  scan_from (Z.of_nat (length read)) rest st = Ok st' →
  scan_trace (read ++ rest) st'.
Proof.
  revert read st. induction rest as [|line rest IH]; intros read st Htr; simpl.
  - intros [= <-]. by rewrite app_nil_r.
  - destruct (scan_line _ line st) as [st1|] eqn:E; [|done]. simpl.
    apply (scan_line_trace _ _ _ _ Htr) in E. intros Hrun.
    replace (read ++ line :: rest) with ((read ++ [line]) ++ rest)
      by (by rewrite <- (assoc_L (++))).
    apply (IH _ st1 E). rewrite length_app. simpl.
    by replace (Z.of_nat (length read + 1)) with (Z.of_nat (length read) + 1)
      by lia.
Qed.

Lemma scan_trace_end content hs :
  scan content = Ok hs →
  Forall (recorded (lines_of content)) hs ∧
  StronglySorted (λ h1 h2, end_ h1 < start h2) hs.
Proof.
  unfold scan. destruct (scan_from 0 _ initial) as [st|] eqn:E; [|done].
  intros [= <-].
  assert (Hinit : scan_trace [] initial).
  { split_and!; [constructor|constructor|done]. }
  apply (scan_from_trace _ [] _ _ Hinit) in E as (? & ? & _). done.
Qed.
End trace.

(** ** What the Scanner records *)

Section records.
Import Scanner.
Implicit Types (h : handler) (hs : list handler) (content : string).

Lemma slice_within {A} (l : list A) (s e : nat) :
  (s ≤ e < length l)%nat →
  Py.slice l (Z.of_nat s) (Z.of_nat e + 1) = take (e - s + 1) (drop s l).
Proof.
  intros Hse. unfold Py.slice, Py.slice_bound.
  rewrite !(proj2 (Z.ltb_ge _ _)) by lia.
  rewrite !Z.min_l by lia. rewrite Nat2Z.id. f_equal. lia.
Qed.

Lemma join_snoc sep (l : list string) x :
  l ≠ [] → Py.join sep (l ++ [x]) = Py.join sep l +:+ sep +:+ x.
Proof.
  induction l as [|y [|z l] IH]; intros Hne; [done|done|].
  cbn [app]. rewrite !join_cons.
  change (z :: l ++ [x]) with ((z :: l) ++ [x]).
  rewrite IH by done. by rewrite !str_app_assoc.
Qed.

Lemma join_app sep (l1 l2 : list string) :
  l1 ≠ [] → l2 ≠ [] →
  Py.join sep (l1 ++ l2) = Py.join sep l1 +:+ sep +:+ Py.join sep l2.
Proof.
  intros H1 H2. revert l1 H1.
  induction l2 as [|x [|y l2] IH]; intros l1 H1; [done|by apply join_snoc|].
  rewrite (cons_middle x l1 (y :: l2)), (assoc_L (++)).
  rewrite IH by (done || by destruct l1).
  rewrite join_snoc by done. by rewrite join_cons, !str_app_assoc.
Qed.

(** The joined text of some consecutive pieces occurs in the joined text
    of all the pieces. *)
Lemma join_middle_occurs sep (l1 mid l2 : list string) :
  mid ≠ [] → Occurs (Py.join sep mid) (Py.join sep (l1 ++ mid ++ l2)).
Proof.
  intros Hmid.
  destruct l1 as [|x1 l1], l2 as [|x2 l2]; simpl app.
  - rewrite app_nil_r. exists "", "". by rewrite str_app_empty_r.
  - rewrite join_app by done. by exists "", (sep +:+ Py.join sep (x2 :: l2)).
  - rewrite app_nil_r.
    change (x1 :: l1 ++ mid) with ((x1 :: l1) ++ mid).
    rewrite join_app by done.
    exists (Py.join sep (x1 :: l1) +:+ sep), "".
    by rewrite str_app_empty_r, str_app_assoc.
  - change (x1 :: l1 ++ mid ++ x2 :: l2) with ((x1 :: l1) ++ mid ++ x2 :: l2).
    rewrite join_app by (done || by destruct mid).
    rewrite (join_app _ mid) by done.
    exists (Py.join sep (x1 :: l1) +:+ sep), (sep +:+ Py.join sep (x2 :: l2)).
    by rewrite !str_app_assoc.
Qed.

(** X2.  The ranges that a scan records do not overlap, and come in the
    order of the file: each ends before the next one starts. *)
Theorem methods_apart content hs :
  scan content = Ok hs →
  StronglySorted (λ h1 h2, end_ h1 < start h2) hs.
Proof. by intros [_ ?]%scan_trace_end. Qed.

Lemma methods_apart_witness :
  StronglySorted (λ h1 h2, end_ h1 < start h2) sample_handlers.
Proof. apply (methods_apart sample_source). vm_compute. reflexivity. Defined.

(** X3.  The lines kept with a recorded method are the lines of the file
    from its start to its end, ends included, and its full text is those
    lines joined by newlines: a part of the file, character for
    character. *)
Theorem method_lines content hs :
  scan content = Ok hs →
  Forall (λ h, lines h = Py.slice (lines_of content) (start h) (end_ h + 1)
               ∧ full_text h = Py.join Py.newline (lines h)
               ∧ Occurs (full_text h) content) hs.
Proof.
  intros [Hall _]%scan_trace_end. apply (Forall_impl _ _ _ Hall).
  intros h (s & e & -> & -> & Hse & Hl & Hft & _).
  split; [|split]; [|done|].
  - rewrite slice_within by lia. done.
  - rewrite Hft, Hl.
    rewrite <- (join_split "010" content) at 2.
    fold (lines_of content).
    rewrite <- (take_drop s (lines_of content)) at 2.
    rewrite <- (take_drop (e - s + 1) (drop s (lines_of content))) at 2.
    apply join_middle_occurs.
    intros Hnil%(f_equal length). rewrite length_take, length_drop in Hnil.
    simpl in Hnil. lia.
Qed.

Lemma method_lines_witness :
  Forall (λ h, lines h = Py.slice (lines_of sample_source) (start h) (end_ h + 1)
               ∧ full_text h = Py.join Py.newline (lines h)
               ∧ Occurs (full_text h) sample_source) sample_handlers.
Proof. apply (method_lines sample_source). vm_compute. reflexivity. Defined.

Lemma search_Some r s ps :
  Re.search r s = Some ps →
  ∃ pre s' rest, s = pre +:+ s' ∧ Re.match_here r s' = Some (ps, rest).
Proof.
  induction s as [|a s IH]; simpl.
  - destruct (Re.match_here r "") as [[ps' rest]|] eqn:E; [|done].
    intros [= <-]. by exists "", "", rest.
  - destruct (Re.match_here r (String a s)) as [[ps' rest]|] eqn:E.
    + intros [= <-]. by exists "", (String a s), rest.
    + intros (pre & s' & rest & -> & Hm)%IH.
      by exists (String a pre), s', rest.
Qed.

(** What a repetition consumes is made of characters of its class. *)
Lemma star_stop_piece cls (k : string → option Re.matched) s ps rest :
  Re.consume "" (k s) = Some (ps, rest) →
  ∃ p ps' s', ps = p :: ps' ∧ all_chars cls p = true ∧
              k s' = Some (ps', rest).
Proof.
  intros H. destruct (k s) as [[ps' rest']|] eqn:E; [|done].
  injection H as <- <-. by exists "", ps', s.
Qed.

Lemma star_extend_piece cls (k : string → option Re.matched) a m ps rest :
  cls a = true →
  (∀ ps rest, m = Some (ps, rest) →
     ∃ p ps' s', ps = p :: ps' ∧ all_chars cls p = true ∧
                 k s' = Some (ps', rest)) →
  Re.extend a m = Some (ps, rest) →
  ∃ p ps' s', ps = p :: ps' ∧ all_chars cls p = true ∧
              k s' = Some (ps', rest).
Proof.
  intros Ha Hm H. destruct m as [[[|p ps0] rest0]|]; [done| |done].
  simpl in H. injection H as <- <-.
  destruct (Hm _ _ eq_refl) as (p' & ps' & s' & [= <- <-] & Hp & Hk).
  exists (String a p), ps0, s'. simpl. by rewrite Ha, Hp.
Qed.

Lemma star_piece greedy cls k s ps rest :
  Re.star greedy cls k s = Some (ps, rest) →
  ∃ p ps' s', ps = p :: ps' ∧ all_chars cls p = true ∧
              k s' = Some (ps', rest).
Proof.
  revert ps rest. induction s as [|a s IH]; intros ps rest H; simpl in H.
  - by eapply star_stop_piece.
  - destruct (cls a) eqn:Ha; [|by eapply star_stop_piece].
    destruct greedy.
    + destruct (Re.extend a _) as [x|] eqn:E.
      * injection H as ->. by eapply star_extend_piece.
      * by eapply star_stop_piece.
    + destruct (Re.consume "" _) as [x|] eqn:E.
      * injection H as ->. by eapply star_stop_piece.
      * by eapply star_extend_piece.
Qed.

Lemma match_here_lit l r s :
  Re.match_here (Re.Lit l :: r) s
  = match Py.strip_prefix l s with
    | Some s' => Re.consume l (Re.match_here r s')
    | None => None
    end.
Proof. reflexivity. Qed.

Lemma match_here_one cls r a s :
  Re.match_here (Re.One cls :: r) (String a s)
  = if cls a then Re.consume (String a "") (Re.match_here r s) else None.
Proof. reflexivity. Qed.

Lemma match_here_star greedy cls r s :
  Re.match_here (Re.Star greedy cls :: r) s
  = Re.star greedy cls (Re.match_here r) s.
Proof. reflexivity. Qed.

(** The name that the Scanner reads off a declaration line is made of
    word characters, one at least. *)
Lemma searched_name_wordy line ps :
  Re.search name_pattern line = Some ps → wordy (group1 ps).
Proof.
  intros (pre & s & rest & _ & Hm)%search_Some.
  unfold name_pattern in Hm. rewrite match_here_lit in Hm.
  destruct (Py.strip_prefix _ s) as [s1|]; [|done].
  destruct s1 as [|a s1]; [done|]. rewrite match_here_one in Hm.
  destruct (Py.is_word a) eqn:Ha; [|done].
  rewrite match_here_star in Hm.
  destruct (Re.star _ _ _ s1) as [[ps' rest']|] eqn:Hstar; [|done].
  cbn [Re.consume] in Hm. injection Hm as <- <-.
  apply star_piece in Hstar as (p & ps'' & s' & -> & Hp & Hk).
  rewrite match_here_lit in Hk.
  destruct (Py.strip_prefix "(" s') as [s2|]; [|done].
  cbn [Re.match_here Re.consume] in Hk. injection Hk as <- <-.
  split; [done|]. cbn [group1]. rewrite str_app_cons, str_app_empty_l.
  simpl. by rewrite Ha, Hp.
Qed.

(** X4.  Every method that a scan records begins with a declaration
    line and holds no other; its name is the one that the search finds
    on that line, a run of word characters. *)
Theorem method_declared content hs :
  scan content = Ok hs →
  Forall (λ h, ∃ decl body ps,
            lines h = decl :: body ∧
            is_declaration decl = true ∧
            Re.search name_pattern decl = Some ps ∧
            name h = group1 ps ∧ wordy (name h) ∧
            Forall (λ l, is_declaration l = false) body) hs.
Proof.
  intros [Hall _]%scan_trace_end. apply (Forall_impl _ _ _ Hall).
  intros h (s & e & _ & _ & _ & _ & _ & Hop & _).
  destruct Hop as (decl & body & ps & ? & ? & Hps & Hn & ?).
  exists decl, body, ps. split_and!; try done.
  rewrite Hn. by eapply searched_name_wordy.
Qed.

Lemma method_declared_witness :
  Forall (λ h, ∃ decl body ps,
            lines h = decl :: body ∧
            is_declaration decl = true ∧
            Re.search name_pattern decl = Some ps ∧
            name h = group1 ps ∧ wordy (name h) ∧
            Forall (λ l, is_declaration l = false) body) sample_handlers.
Proof. apply (method_declared sample_source). vm_compute. reflexivity. Defined.

(** X5.  The braces of every method that a scan records balance as the
    Scanner counts them: the net count over its lines is zero, an opening
    brace is among them, and its last line is the first line after the
    declaration at which that is so. *)
Theorem method_balanced content hs :
  scan content = Ok hs →
  Forall (λ h, sum_braces (lines h) = 0 ∧
               Py.contains "{" (Py.concat (lines h)) = true ∧
               close_point (lines h) = Some (length (lines h) - 2)%nat) hs.
Proof.
  intros [Hall _]%scan_trace_end. apply (Forall_impl _ _ _ Hall).
  intros h (s & e & _ & _ & Hse & Hl & _ & _ & Hsum & Hbr & Hcp).
  split; [done|]. split; [done|]. rewrite Hcp. f_equal.
  rewrite Hl, length_take, length_drop. lia.
Qed.

Lemma method_balanced_witness :
  Forall (λ h, sum_braces (lines h) = 0 ∧
               Py.contains "{" (Py.concat (lines h)) = true ∧
               close_point (lines h) = Some (length (lines h) - 2)%nat)
    sample_handlers.
Proof. apply (method_balanced sample_source). vm_compute. reflexivity. Defined.

Lemma scan_line_raises i line st e :
  scan_line i line st = Raise e → e = AttributeError ∧ unnamed line.
Proof.
  unfold scan_line, unnamed, is_declaration.
  destruct (Re.match_ declaration_pattern line).
  - destruct (Re.search name_pattern line); [done|]. by intros [= <-].
  - destruct (in_method st), (current_method st); try done.
    by destruct (_ && _).
Qed.

Lemma scan_line_unnamed i line st :
  unnamed line → scan_line i line st = Raise AttributeError.
Proof. unfold scan_line, unnamed, is_declaration. by intros [-> ->]. Qed.

Lemma scan_from_raises ls i st e :
  scan_from i ls st = Raise e → e = AttributeError ∧ Exists unnamed ls.
Proof.
  revert i st. induction ls as [|line ls IH]; intros i st; simpl; [done|].
  destruct (scan_line i line st) as [st1|e1] eqn:E; simpl.
  - intros [-> ?]%IH. split; [done|]. by right.
  - intros [= <-]. apply scan_line_raises in E as [-> ?].
    split; [done|]. by left.
Qed.

Lemma scan_from_unnamed ls i st :
  Exists unnamed ls → scan_from i ls st = Raise AttributeError.
Proof.
  intros Hex. revert i st. induction Hex as [line ls Hline|line ls _ IH];
    intros i st; simpl.
  - by rewrite scan_line_unnamed.
  - destruct (scan_line i line st) as [st1|e1] eqn:E; simpl; [apply IH|].
    by apply scan_line_raises in E as [-> _].
Qed.

(** X6.  The Scanner fails on exactly the files that hold a declaration
    line without a name followed by an opening parenthesis: it then
    raises [AttributeError] (and writes no listing); it raises nothing
    else. *)
Theorem scan_fault content :
  (Exists unnamed (lines_of content) → scan content = Raise AttributeError) ∧
  (∀ e, scan content = Raise e →
        e = AttributeError ∧ Exists unnamed (lines_of content)).
Proof.
  unfold scan. split.
  - intros H. by rewrite (scan_from_unnamed _ 0 initial H).
  - intros e. destruct (scan_from 0 _ initial) as [st|e1] eqn:E; [done|].
    intros [= <-]. by apply scan_from_raises in E.
Qed.

Lemma scan_fault_witness : scan nameless_source = Raise AttributeError.
Proof.
  apply (proj1 (scan_fault nameless_source)).
  apply Exists_exists.
  exists "  private async handleEvent = async () => {". split.
  - apply (list_elem_of_lookup_2 _ 1%nat). vm_compute. reflexivity.
  - split; vm_compute; reflexivity.
Defined.

Lemma scan_from_app l1 l2 i st :
  scan_from i (l1 ++ l2) st
  = (st1 ← scan_from i l1 st; scan_from (i + Z.of_nat (length l1)) l2 st1).
Proof.
  revert i st. induction l1 as [|line l1 IH]; intros i st; simpl.
  - by rewrite Z.add_0_r.
  - destruct (scan_line i line st) as [st1|]; simpl; [|done].
    rewrite IH. by replace (i + 1 + Z.of_nat (length l1))
      with (i + Z.pos (Pos.of_succ_nat (length l1))) by lia.
Qed.

(** The scan only appends; what it appends starts at the method under
    way or at a later line. *)
Lemma scan_from_appends ls i st st' :
  scan_from i ls st = Ok st' →
  ∃ new, handlers st' = handlers st ++ new ∧
         Forall (λ h, (∃ m, current_method st = Some m ∧ start h = c_start m)
                      ∨ i ≤ start h) new.
Proof.
  revert i st. induction ls as [|line ls IH]; intros i st; simpl.
  - intros [= <-]. exists []. by rewrite app_nil_r.
  - destruct (scan_line i line st) as [st1|] eqn:E; [|done]. simpl.
    intros (new & Hh & Hnew)%IH. revert E. unfold scan_line.
    destruct (Re.match_ declaration_pattern line).
    { destruct (Re.search name_pattern line); [|done]. intros [= <-].
      exists new. split; [done|]. apply (Forall_impl _ _ _ Hnew).
      simpl. intros h [(m & [= <-] & ->)|?]; right; simpl; lia. }
    destruct (in_method st) eqn:Hin, (current_method st) as [m|] eqn:Hm;
      try (intros [= <-]; exists new; split; [done|];
           apply (Forall_impl _ _ _ Hnew); rewrite ?Hm;
           intros h [(m' & ? & ?)|?]; [by left; exists m'|right; lia]).
    destruct (_ && _); intros [= <-]; simpl in *.
    + exists (closed_at (with_line m line) i :: new).
      rewrite Hh, <- (assoc_L (++)). split; [done|]. constructor.
      * left. by exists m.
      * apply (Forall_impl _ _ _ Hnew). intros h [(? & ? & _)|?]; [done|].
        right. lia.
    + exists new. split; [done|]. apply (Forall_impl _ _ _ Hnew).
      intros h [(m' & [= <-] & ->)|?]; [left; by exists m|right; lia].
Qed.

(** X7.  A declaration line met while a method is under way discards
    that method: whatever follows, no descriptor of the scan starts where
    it started. *)
Theorem abandoned_method content read line rest st m hs :
  lines_of content = read ++ line :: rest →
  scan_from 0 read initial = Ok st →
  tracking st m →
  is_declaration line = true →
  scan content = Ok hs →
  Forall (λ h, start h ≠ c_start m) hs.
Proof.
  intros Hlines Hread [_ Hcur] Hdecl. unfold scan.
  rewrite Hlines, scan_from_app, Hread. simpl.
  assert (Htr : scan_trace read st).
  { assert (Hinit : scan_trace [] initial)
      by (split_and!; [constructor|constructor|done]).
    by apply (scan_from_trace _ [] _ _ Hinit) in Hread. }
  destruct Htr as (Hall & _ & Hway). unfold under_way in Hway.
  rewrite Hcur in Hway.
  destruct Hway as (_ & s & Hs & Hlt & _ & _ & _ & _ & Hends).
  destruct (scan_line _ line st) as [st1|] eqn:E; [|done]. simpl.
  destruct (declaration_line _ _ _ _ Hdecl E)
    as (Hh1 & m1 & [_ Hcur1] & Hstart1 & _).
  destruct (scan_from _ rest st1) as [st2|] eqn:E2; [|done].
  intros [= <-].
  apply scan_from_appends in E2 as (new & -> & Hnew).
  rewrite Hh1. apply Forall_app. split.
  - rewrite Forall_forall in Hall, Hends. apply Forall_forall.
    intros h Hin. destruct (Hall h Hin) as (s0 & e0 & Hs0 & He0 & ? & _).
    specialize (Hends h Hin). lia.
  - apply (Forall_impl _ _ _ Hnew).
    intros h [(m' & Hm' & ->)|?]; [|lia].
    rewrite Hcur1 in Hm'. injection Hm' as <-. lia.
Qed.

Lemma abandoned_method_witness :
  Forall (λ h, start h ≠ c_start interrupted_method) interrupted_handlers.
Proof.
  apply (abandoned_method interrupted_source
           (take 2 (lines_of interrupted_source))
           "  private async handleTaskBar(phone: string): Promise<void> {"
           (drop 3 (lines_of interrupted_source))
           interrupted_state interrupted_method interrupted_handlers).
  - vm_compute. reflexivity.
  - vm_compute. reflexivity.
  - split; reflexivity.
  - vm_compute. reflexivity.
  - vm_compute. reflexivity.
Defined.
End records.

(** ** From the Scanner to the listing and back *)

Section listing_back.
Import Scanner.
Implicit Types (s t : string) (a c : ascii) (hs : list handler).

Lemma all_chars_app cls s t :
  all_chars cls (s +:+ t) = all_chars cls s && all_chars cls t.
Proof.
  induction s as [|a s IH]; [done|]. rewrite str_app_cons. simpl.
  by rewrite IH, andb_assoc.
Qed.

Lemma word_plain a : Py.is_word a = true → is_plain a = true.
Proof. by destruct a as [[] [] [] [] [] [] [] []]. Qed.

Lemma digit_plain a : is_digit a = true → is_plain a = true.
Proof.
  intros Ha%digit_cases.
  repeat (apply elem_of_cons in Ha as [->|Ha]; [done|]).
  by apply elem_of_nil in Ha.
Qed.

Lemma pretty_plain (z : Z) :
  pretty z ≠ "" ∧ all_chars is_plain (pretty z) = true.
Proof.
  destruct z as [|p|p]; [done|..];
    destruct (pretty_N_numeral (N.pos p)) as (Hd & Hne & _).
  - change (pretty (Z.pos p)) with (pretty (N.pos p)). split; [done|].
    eapply all_chars_impl; [apply digit_plain|done].
  - change (pretty (Z.neg p)) with ("-" +:+ pretty (N.pos p)).
    split; [done|]. rewrite str_app_cons. simpl.
    eapply all_chars_impl; [apply digit_plain|done].
Qed.

Lemma plain_not_space s :
  all_chars is_plain s = true →
  all_chars (λ a, negb (Py.is_space a)) s = true.
Proof.
  apply all_chars_impl. unfold is_plain. by intros a [? _]%andb_true_iff.
Qed.

Lemma split_plain s : all_chars is_plain s = true → Py.split ":" s = [s].
Proof.
  induction s as [|a s IH]; [done|]. simpl.
  intros [[_ Ha]%andb_true_iff Hs]%andb_true_iff.
  apply negb_true_iff in Ha. rewrite Ha, IH by done. done.
Qed.

Lemma split_plain_colon s t :
  all_chars is_plain s = true →
  Py.split ":" (s +:+ ":" +:+ t) = s :: Py.split ":" t.
Proof.
  induction s as [|a s IH]; [done|]. rewrite str_app_cons. simpl.
  intros [[_ Ha]%andb_true_iff Hs]%andb_true_iff.
  apply negb_true_iff in Ha. rewrite Ha, IH by done. done.
Qed.

Lemma drop_trailing_all cls t :
  all_chars cls t = true → Py.drop_trailing cls t = "".
Proof.
  induction t as [|a t IH]; [done|]. simpl.
  intros [Ha Ht]%andb_true_iff. by rewrite IH, Ha.
Qed.

Lemma drop_trailing_app cls s t :
  all_chars cls t = true →
  Py.drop_trailing cls (s +:+ t) = Py.drop_trailing cls s.
Proof.
  intros Ht. induction s as [|a s IH].
  - by rewrite str_app_empty_l, drop_trailing_all.
  - rewrite str_app_cons. simpl. by rewrite IH.
Qed.

Lemma readlines_line body rest :
  all_chars (λ a, negb (Ascii.eqb a "010")) body = true →
  Py.readlines (body +:+ Py.newline +:+ rest)
  = (body +:+ Py.newline) :: Py.readlines rest.
Proof.
  induction body as [|a body IH]; [done|]. rewrite !str_app_cons. simpl.
  intros [Ha Hb]%andb_true_iff. apply negb_true_iff in Ha.
  by rewrite Ha, IH.
Qed.

Lemma plain_not_newline s :
  all_chars is_plain s = true →
  all_chars (λ a, negb (Ascii.eqb a "010")) s = true.
Proof.
  apply all_chars_impl. intros a. by destruct a as [[] [] [] [] [] [] [] []].
Qed.

Lemma colon_not_newline s :
  all_chars (λ a, is_plain a || Ascii.eqb a ":") s = true →
  all_chars (λ a, negb (Ascii.eqb a "010")) s = true.
Proof.
  apply all_chars_impl. intros a. by destruct a as [[] [] [] [] [] [] [] []].
Qed.

(** The entry of a method with a wordy name: its shape. *)
Lemma entry_shape h :
  wordy (name h) →
  Py.strip (entry h +:+ Py.newline) = entry h ∧
  entry h ≠ "" ∧
  fields (entry h +:+ Py.newline)
  = [name h; pretty (start h); pretty (end_ h)] ∧
  all_chars (λ a, negb (Ascii.eqb a "010")) (entry h) = true.
Proof.
  intros [Hne Hw].
  destruct (pretty_plain (start h)) as [Hs0 Hs], (pretty_plain (end_ h))
    as [He0 He].
  assert (Hn : all_chars is_plain (name h) = true)
    by (eapply all_chars_impl; [apply word_plain|done]).
  assert (Hstrip : Py.strip (entry h +:+ Py.newline) = entry h).
  { unfold Py.strip, entry.
    destruct (name h) as [|a nm] eqn:En; [done|].
    assert (Ha : Py.is_space a = false).
    { simpl in Hn. apply andb_true_iff in Hn as [Ha _].
      unfold is_plain in Ha. apply andb_true_iff in Ha as [Ha _].
      by apply negb_true_iff in Ha. }
    rewrite !str_app_cons. cbn [Py.drop_leading]. rewrite Ha.
    rewrite <- !str_app_cons.
    rewrite <- !str_app_assoc. rewrite drop_trailing_app by done.
    apply drop_trailing_none. rewrite !all_chars_app.
    rewrite (plain_not_space _ Hn), (plain_not_space _ Hs),
      (plain_not_space _ He). done. }
  split; [done|]. split; [unfold entry; by destruct (name h)|].
  split.
  - unfold fields. rewrite Hstrip. unfold entry.
    rewrite split_plain_colon by done.
    rewrite split_plain_colon by done. by rewrite split_plain.
  - apply colon_not_newline. unfold entry. rewrite !all_chars_app.
    assert (∀ s, all_chars is_plain s = true →
                 all_chars (λ a, is_plain a || Ascii.eqb a ":") s = true)
      as Hor.
    { intros s. apply all_chars_impl. by intros a ->. }
    by rewrite (Hor _ Hn), (Hor _ Hs), (Hor _ He).
Qed.

Lemma readlines_handler_info hs :
  Forall (λ h, wordy (name h)) hs →
  Py.readlines (handler_info hs) = (λ h, entry h +:+ Py.newline) <$> hs.
Proof.
  induction 1 as [|h hs Hh _ IH]; [done|].
  unfold handler_info in *. cbn [map Py.concat fmap list_fmap].
  destruct (entry_shape h Hh) as (_ & _ & _ & Hnl).
  replace (name h +:+ ":" +:+ pretty (start h) +:+ ":" +:+ pretty (end_ h)
           +:+ Py.newline) with (entry h +:+ Py.newline)
    by (unfold entry; by rewrite !str_app_assoc).
  rewrite str_app_assoc, readlines_line by done. by rewrite IH.
Qed.

Lemma read_line_entry h acc :
  wordy (name h) →
  Listing.read_line (entry h +:+ Py.newline) acc = Ok (acc ++ moved [h]).
Proof.
  intros Hh. destruct (entry_shape h Hh) as (Hstrip & Hne & Hf & _).
  unfold Listing.read_line. fold (fields (entry h +:+ Py.newline)).
  rewrite Hstrip, Hf. destruct (String.eqb_spec (entry h) ""); [done|].
  unfold moved. rewrite filter_cons, filter_nil.
  destruct (String.eqb_spec (name h) Listing.exception) as [Hx|Hx]; simpl.
  - rewrite decide_False by (by intros []). by rewrite app_nil_r.
  - rewrite decide_True by done. by rewrite !int_of_pretty.
Qed.

Lemma moved_cons h hs : moved (h :: hs) = moved [h] ++ moved hs.
Proof.
  unfold moved. rewrite !filter_cons, filter_nil.
  by destruct (decide (name h ≠ Listing.exception)).
Qed.

Lemma read_lines_entries hs acc :
  Forall (λ h, wordy (name h)) hs →
  Listing.read_lines ((λ h, entry h +:+ Py.newline) <$> hs) acc
  = Ok (acc ++ moved hs).
Proof.
  intros Hhs. revert acc. induction Hhs as [|h hs Hh _ IH]; intros acc.
  - by rewrite app_nil_r.
  - cbn [fmap list_fmap Listing.read_lines]. rewrite read_line_entry by done.
    rewrite (moved_cons h hs), (assoc_L (++)). exact (IH _).
Qed.

Lemma scan_names_wordy content hs :
  scan content = Ok hs → Forall (λ h, wordy (name h)) hs.
Proof.
  intros [Hall _]%scan_trace_end. apply (Forall_impl _ _ _ Hall).
  intros h (s & e & _ & _ & _ & _ & _ & Hop & _).
  destruct Hop as (decl & body & ps & _ & _ & Hps & -> & _).
  by eapply searched_name_wordy.
Qed.

(** X8.  The listing that the Scanner writes is read back by the
    Extractor and the Rewriter, without fault, as the descriptors of the
    recorded methods other than [handleStateMessage]: same names, starts
    and ends, in the same order. *)
Theorem listing_round_trip content hs :
  scan content = Ok hs →
  Listing.read (handler_info hs) = Ok (moved hs).
Proof.
  intros Hw%scan_names_wordy. unfold Listing.read.
  rewrite readlines_handler_info by done.
  by rewrite read_lines_entries.
Qed.

Lemma listing_round_trip_witness :
  Listing.read (handler_info sample_handlers) = Ok (moved sample_handlers).
Proof. apply (listing_round_trip sample_source). vm_compute. reflexivity. Defined.
End listing_back.

(** ** The deletion step and the extraction, side by side *)

Section conservation.
Import Listing Rewriter.
Implicit Types (hs : list descriptor) (lines : list string) (rm : gset Z).

Lemma keep_from_all i rm lines :
  (∀ j, i ≤ j < i + Z.of_nat (length lines) → j ∉ rm) →
  keep_from i rm lines = lines.
Proof.
  revert i. induction lines as [|line lines IH]; intros i Hfree; [done|].
  simpl. rewrite decide_False by (apply Hfree; simpl; lia).
  f_equal. apply IH. intros j Hj. apply Hfree. simpl. lia.
Qed.

Lemma new_lines_all hs lines :
  (∀ i, 0 ≤ i < Z.of_nat (length lines) → ¬ covered hs i) →
  new_lines hs lines = lines.
Proof.
  intros Hfree. apply keep_from_all. intros j Hj.
  rewrite elem_of_lines_to_remove. apply Hfree. lia.
Qed.

(** X9.  The deletion step returns the lines as they are exactly when no
    index of the file lies in a listed range: an empty listing, a range
    beyond the last line, before the first one or with its end before its
    start removes nothing, and raises nothing. *)
Theorem deletion_spares hs lines :
  new_lines hs lines = lines ↔
  ∀ i, 0 ≤ i < Z.of_nat (length lines) → ¬ covered hs i.
Proof.
  split; [|apply new_lines_all].
  intros Heq i Hi Hcov. apply (f_equal length) in Heq.
  unfold new_lines in Heq. rewrite keep_from_length in Heq.
  assert (Hin : i ∈ seqZ 0 (Z.of_nat (length lines)))
    by (apply elem_of_seqZ; lia).
  assert (Hno : ¬ (i ∉ lines_to_remove hs))
    by (rewrite elem_of_lines_to_remove; tauto).
  pose proof (length_filter_lt (λ j, j ∉ lines_to_remove hs) _ i Hin Hno)
    as Hlt.
  rewrite length_seqZ in Hlt. lia.
Qed.

Lemma deletion_spares_witness :
  new_lines far_descriptors (Py.readlines sample_source)
  = Py.readlines sample_source.
Proof.
  apply (proj2 (deletion_spares far_descriptors (Py.readlines sample_source))).
  assert (length (Py.readlines sample_source) = 10%nat) as ->
    by (vm_compute; reflexivity).
  intros i Hi [Hr|Hr%Exists_nil]%Exists_cons; [|done].
  unfold in_range in Hr. simpl in Hr. lia.
Defined.

Lemma slice_as_filter_from lines (a b i : Z) :
  (filter (λ p : Z * string, a ≤ p.1 ≤ b)
     (zip (seqZ i (Z.of_nat (length lines))) lines)).*2
  = take (Z.to_nat (b + 1 - Z.max a i)) (drop (Z.to_nat (a - i)) lines).
Proof.
  revert i. induction lines as [|line lines IH]; intros i.
  - by rewrite drop_nil, take_nil.
  - cbn [length]. rewrite seqZ_succ. cbn [zip zip_with].
    rewrite filter_cons. cbn [fst]. specialize (IH (i + 1)).
    destruct (decide (a ≤ i ≤ b)) as [Hi|Hi].
    + cbn [fmap list_fmap snd]. rewrite IH.
      replace (Z.to_nat (a - i)) with 0%nat by lia.
      replace (Z.to_nat (a - (i + 1))) with 0%nat by lia.
      replace (Z.to_nat (b + 1 - Z.max a i))
        with (S (Z.to_nat (b + 1 - Z.max a (i + 1)))) by lia.
      done.
    + rewrite IH. destruct (decide (i < a)).
      * replace (Z.to_nat (a - i)) with (S (Z.to_nat (a - (i + 1)))) by lia.
        cbn [drop]. f_equal. lia.
      * replace (Z.to_nat (b + 1 - Z.max a (i + 1))) with 0%nat by lia.
        replace (Z.to_nat (b + 1 - Z.max a i)) with 0%nat by lia.
        done.
Qed.

Lemma slice_as_filter lines h :
  0 ≤ start h ≤ end_ h ∧ end_ h < Z.of_nat (length lines) →
  Py.slice lines (start h) (end_ h + 1)
  = (filter (λ p, in_range h p.1) (enumerate lines)).*2.
Proof.
  intros Hh. unfold enumerate, in_range. rewrite slice_as_filter_from.
  unfold Py.slice, Py.slice_bound.
  rewrite !(proj2 (Z.ltb_ge _ _)) by lia. rewrite !Z.min_l by lia.
  f_equal; [lia|]. f_equal. lia.
Qed.

Lemma filter_split_perm {A} (P Q R : A → Prop)
  `{!∀ x, Decision (P x), !∀ x, Decision (Q x), !∀ x, Decision (R x)}
  (l : list A) :
  (∀ x, x ∈ l → (P x ↔ Q x ∨ R x) ∧ ¬ (Q x ∧ R x)) →
  filter P l ≡ₚ filter Q l ++ filter R l.
Proof.
  induction l as [|x l IH]; intros Hall; [done|].
  destruct (Hall x (list_elem_of_here _ _)) as [HP HQR].
  assert (IH' := IH (λ y Hy, Hall y (list_elem_of_further _ _ _ Hy))).
  rewrite !filter_cons.
  destruct (decide (P x)), (decide (Q x)), (decide (R x)); try tauto.
  - simpl. by rewrite IH'.
  - rewrite IH'. apply Permutation_middle.
Qed.

Lemma filter_all {A} (P : A → Prop) `{!∀ x, Decision (P x)} (l : list A) :
  (∀ x, x ∈ l → P x) → filter P l = l.
Proof.
  induction l as [|x l IH]; intros Hall; [done|].
  rewrite filter_cons_True by (apply Hall; by left).
  f_equal. apply IH. intros y Hy. apply Hall. by right.
Qed.

Lemma uncovered_perm {A} hs (l : list (Z * A)) :
  pairwise_disjoint hs →
  l ≡ₚ filter (λ p, ¬ covered hs p.1) l
       ++ mjoin ((λ h, filter (λ p, in_range h p.1) l) <$> hs).
Proof.
  induction hs as [|h hs IH]; intros Hdisj.
  - simpl. rewrite app_nil_r, filter_all; [done|].
    intros p _. unfold covered. rewrite Exists_nil. tauto.
  - destruct Hdisj as [Hh Hdisj]. rewrite (IH Hdisj) at 1.
    cbn [fmap list_fmap mjoin list_join].
    rewrite (assoc_L (++)). f_equiv; [|done].
    apply (filter_split_perm (λ p, ¬ covered hs p.1)
             (λ p, ¬ covered (h :: hs) p.1) (λ p, in_range h p.1)).
    intros p _. unfold covered. rewrite Exists_cons. split; [|tauto].
    split; [destruct (decide (in_range h p.1)); tauto|].
    intros [Hq|Hr]; [tauto|]. rewrite Exists_exists.
    intros (h' & Hin & Hr'). rewrite Forall_forall in Hh.
    specialize (Hh h' Hin). unfold in_range in *. lia.
Qed.

Lemma snd_enumerate lines : (enumerate lines).*2 = lines.
Proof. unfold enumerate. apply snd_zip. rewrite length_seqZ. lia. Qed.

(** X10.  No line is lost and none is doubled: when the listed ranges lie
    inside the file and are pairwise disjoint, the lines that the
    Rewriter keeps together with the lines that the Extractor slices out
    for the same descriptors are the lines of the file, each once. *)
Theorem lines_conserved hs lines :
  Forall (λ h, 0 ≤ start h ≤ end_ h ∧ end_ h < Z.of_nat (length lines)) hs →
  pairwise_disjoint hs →
  lines ≡ₚ new_lines hs lines
           ++ mjoin ((λ h, Py.slice lines (start h) (end_ h + 1)) <$> hs).
Proof.
  intros Hrange Hdisj.
  assert (Hnew : new_lines hs lines
                 = (filter (λ p, ¬ covered hs p.1) (enumerate lines)).*2).
  { unfold new_lines, enumerate. rewrite keep_from_filter. f_equal.
    apply list_filter_iff. intros [i line]. simpl.
    by rewrite elem_of_lines_to_remove. }
  assert (Hsl : (λ h, Py.slice lines (start h) (end_ h + 1)) <$> hs
                = (λ h, (filter (λ p, in_range h p.1) (enumerate lines)).*2)
                  <$> hs).
  { apply Forall_fmap_ext. apply (Forall_impl _ _ _ Hrange).
    intros h Hh. by apply slice_as_filter. }
  rewrite Hnew, Hsl.
  rewrite <- (snd_enumerate lines) at 1.
  rewrite (uncovered_perm hs (enumerate lines) Hdisj) at 1.
  rewrite fmap_app. f_equiv.
  clear. induction hs as [|h hs IH]; [done|].
  cbn [fmap list_fmap mjoin list_join]. by rewrite fmap_app, IH.
Qed.

Lemma lines_conserved_witness :
  Py.readlines sample_source
  ≡ₚ new_lines both_descriptors (Py.readlines sample_source)
     ++ mjoin ((λ h, Py.slice (Py.readlines sample_source) (start h) (end_ h + 1))
                 <$> both_descriptors).
Proof.
  apply (lines_conserved both_descriptors (Py.readlines sample_source)).
  - assert (length (Py.readlines sample_source) = 10%nat) as ->
      by (vm_compute; reflexivity).
    repeat constructor; simpl; lia.
  - simpl. split_and!; try done. constructor; [|done]. simpl. lia.
Defined.
End conservation.

(** ** Edges of the Extractor and of the Rewriter *)

Section edges.
Import Listing.
Implicit Types (hs : list descriptor) (lines : list string) (h : descriptor).

(** X11.  A range is cut to the file and never faults: inside the file
    the block is the lines from start to end, ends included; a start at
    or beyond the end of the file, or an end before the start, leaves only
    the spacing line; an end beyond the last line stops at the last
    line. *)
Theorem block_bounds lines h :
  let n := Z.of_nat (length lines) in
  (0 ≤ start h ≤ end_ h ∧ end_ h < n →
   Extractor.block lines h
   = take (Z.to_nat (end_ h - start h + 1)) (drop (Z.to_nat (start h)) lines)
     ++ [Py.newline] ∧
   Z.of_nat (length (Extractor.block lines h)) = end_ h - start h + 2) ∧
  (n ≤ start h ∨ 0 ≤ end_ h + 1 ≤ start h →
   Extractor.block lines h = [Py.newline]) ∧
  (0 ≤ start h ≤ n ∧ n ≤ end_ h + 1 →
   Extractor.block lines h = drop (Z.to_nat (start h)) lines ++ [Py.newline]).
Proof.
  intros n. unfold Extractor.block, Py.slice, Py.slice_bound. fold n.
  split; [|split].
  - intros Hh. rewrite !(proj2 (Z.ltb_ge _ _)) by lia.
    rewrite !Z.min_l by lia.
    replace (end_ h + 1 - start h) with (end_ h - start h + 1) by lia.
    split; [done|]. rewrite length_app, length_take, length_drop. simpl.
    subst n. lia.
  - intros [Hh|Hh].
    + destruct (end_ h + 1 <? 0) eqn:E;
        rewrite !(proj2 (Z.ltb_ge _ _)) by lia;
        rewrite (Z.min_r (start h)) by lia;
        rewrite drop_ge by lia; by rewrite take_nil.
    + rewrite !(proj2 (Z.ltb_ge _ _)) by lia.
      replace (Z.to_nat (Z.min (end_ h + 1) n - Z.min (start h) n))
        with 0%nat by lia.
      done.
  - intros Hh. rewrite !(proj2 (Z.ltb_ge _ _)) by lia.
    rewrite Z.min_r, Z.min_l by lia.
    rewrite take_ge; [done|]. rewrite length_drop. lia.
Qed.

Lemma block_bounds_witness :
  Extractor.block (Py.readlines sample_source) late_descriptor
  = drop 8 (Py.readlines sample_source) ++ [Py.newline].
Proof.
  apply (proj2 (proj2 (block_bounds (Py.readlines sample_source)
                         late_descriptor))).
  assert (length (Py.readlines sample_source) = 10%nat) as ->
    by (vm_compute; reflexivity).
  simpl. lia.
Defined.

Lemma exists_malformed_split ls :
  Exists (λ line, malformed line = true) ls →
  ∃ ls1 line ls2, ls = ls1 ++ line :: ls2 ∧ malformed line = true.
Proof.
  intros (line & Hin & Hbad)%Exists_exists.
  apply list_elem_of_split in Hin as (ls1 & ls2 & ->). by exists ls1, line, ls2.
Qed.

Lemma read_fault listing e :
  Listing.read listing = Raise e ↔
  e = ValueError ∧
  Exists (λ line, malformed line = true) (Py.readlines listing).
Proof.
  unfold Listing.read. split.
  - intros H. split; [by eapply read_lines_raises|].
    destruct (decide (Exists (λ line, malformed line = true)
                        (Py.readlines listing))) as [|Hno]; [done|].
    apply not_Exists_Forall in Hno; [|intros line; apply _].
    assert (Hok : Forall (λ line, malformed line = false)
                    (Py.readlines listing)).
    { apply (Forall_impl _ _ _ Hno). intros line. simpl.
      by destruct (malformed line). }
    destruct (read_lines_well_formed _ [] Hok) as [hs Hhs]. congruence.
  - intros [-> (ls1 & line & ls2 & -> & Hbad)%exists_malformed_split].
    by apply read_lines_malformed.
Qed.



(** X13.  With nothing to remove and none of its four anchors in the
    source, the Rewriter writes the source back as it is, to the
    character. *)
Theorem rewriter_identity listing source hs :
  Rewriter.handlers_to_remove listing = Ok hs →
  (∀ i, 0 ≤ i < Z.of_nat (length (Py.readlines source)) → ¬ covered hs i) →
  ¬ Occurs Rewriter.import_anchor source →
  ¬ Occurs Rewriter.field_anchor source →
  ¬ Occurs Rewriter.nlp_router_init source →
  NoMatch Rewriter.old_handle_state source →
  Rewriter.run listing source = Ok source.
Proof.
  intros Hhs Hfree H1 H2 H3 H4. unfold Rewriter.run. rewrite Hhs. simpl.
  rewrite new_lines_all, concat_readlines by done.
  unfold Rewriter.substitute, Rewriter.add_import.
  rewrite (replace_absent _ _ _ H1). unfold Rewriter.add_field.
  rewrite (replace_absent _ _ _ H2). unfold Rewriter.add_init.
  rewrite (replace_absent _ _ _ H3). unfold Rewriter.delegate.
  by rewrite (sub_absent _ _ _ H4).
Qed.

Lemma rewriter_identity_witness :
  Rewriter.run far_listing plain_source = Ok plain_source.
Proof.
  apply (rewriter_identity far_listing plain_source far_descriptors).
  - vm_compute. reflexivity.
  - assert (length (Py.readlines plain_source) = 2%nat) as ->
      by (vm_compute; reflexivity).
    intros i Hi [Hr|Hr%Exists_nil]%Exists_cons; [|done].
    unfold in_range in Hr. simpl in Hr. lia.
  - apply not_occurs_intro. vm_compute. reflexivity.
  - apply not_occurs_intro. vm_compute. reflexivity.
  - apply not_occurs_intro. vm_compute. reflexivity.
  - apply no_match_intro. vm_compute. reflexivity.
Defined.
End edges.

(** ** The three scripts in a row *)

Section pipeline.
Import Scanner.
Implicit Types (h : handler) (hs : list handler) (content s : string).

Lemma moved_disjoint hs :
  StronglySorted (λ h1 h2, end_ h1 < start h2) hs →
  pairwise_disjoint (moved hs).
Proof.
  unfold moved. induction 1 as [|h hs _ IH Hh]; [done|].
  rewrite filter_cons. case_decide; [|done]. simpl. split; [|done].
  apply Forall_fmap, Forall_forall. intros h' [_ Hin]%list_elem_of_filter.
  rewrite Forall_forall in Hh. left. simpl. by apply Hh.
Qed.

Lemma moved_in_file content hs :
  scan content = Ok hs →
  Forall (λ h, end_ h < Z.of_nat (length (Py.readlines content))) hs →
  Forall (λ d, 0 ≤ Listing.start d ≤ Listing.end_ d
               ∧ Listing.end_ d < Z.of_nat (length (Py.readlines content)))
    (moved hs).
Proof.
  intros [Hall _]%scan_trace_end Hend. unfold moved.
  apply Forall_fmap, Forall_forall. intros h [_ Hin]%list_elem_of_filter.
  rewrite Forall_forall in Hall, Hend.
  destruct (Hall h Hin) as (s & e & Hs & He & ? & _).
  specialize (Hend h Hin). simpl. lia.
Qed.

(** X14.  The scan and the rewrite in a row: the Rewriter reads the
    listing that the Scanner wrote as the recorded methods other than
    [handleStateMessage], and, provided each of them ends on a line of
    the file, its deletion step removes the sum of their lengths, no line
    more and no line less. *)
Theorem scan_then_delete content hs :
  scan content = Ok hs →
  Forall (λ h, end_ h < Z.of_nat (length (Py.readlines content))) hs →
  Rewriter.handlers_to_remove (handler_info hs) = Ok (moved hs) ∧
  Z.of_nat (length (Rewriter.new_lines (moved hs) (Py.readlines content)))
  = Z.of_nat (length (Py.readlines content)) - removed_count (moved hs).
Proof.
  intros Hscan Hend. split.
  - unfold Rewriter.handlers_to_remove, Listing.read.
    pose proof (scan_names_wordy _ _ Hscan) as Hw.
    rewrite readlines_handler_info by done. by rewrite read_lines_entries.
  - unfold Rewriter.new_lines. rewrite keep_from_length.
    rewrite <- (uncovered_count (moved hs) (length (Py.readlines content))).
    + f_equal. f_equal. apply list_filter_iff. intros i.
      by rewrite elem_of_lines_to_remove.
    + by apply moved_in_file.
    + apply moved_disjoint. by apply scan_trace_end in Hscan as [_ ?].
Qed.

Lemma scan_then_delete_witness :
  Rewriter.handlers_to_remove (handler_info sample_handlers)
  = Ok (moved sample_handlers) ∧
  Z.of_nat (length (Rewriter.new_lines (moved sample_handlers)
                      (Py.readlines sample_source)))
  = Z.of_nat (length (Py.readlines sample_source))
    - removed_count (moved sample_handlers).
Proof.
  apply (scan_then_delete sample_source sample_handlers).
  - vm_compute. reflexivity.
  - assert (length (Py.readlines sample_source) = 10%nat) as ->
      by (vm_compute; reflexivity).
    repeat constructor.
Defined.

Lemma take_readlines s k :
  (k < length (Py.split "010" s))%nat →
  take k (Py.readlines s)
  = (λ l, l +:+ Py.newline) <$> take k (Py.split "010" s).
Proof.
  revert k. induction s as [|a s IH]; intros k Hk.
  - simpl in Hk. by replace k with 0%nat by lia.
  - destruct k as [|k]; [done|]. revert Hk. simpl.
    destruct (Ascii.eqb_spec a "010") as [->|Ha].
    + simpl. intros Hk. rewrite IH by lia. done.
    + destruct (Py.split "010" s) as [|p t] eqn:Es; [simpl; lia|].
      simpl. intros Hk. specialize (IH (S k)). simpl in IH.
      specialize (IH ltac:(lia)).
      destruct (Py.readlines s) as [|p' t']; [done|].
      simpl in IH. injection IH as -> Ht. simpl. by rewrite Ht.
Qed.

Lemma readlines_length s :
  (length (Py.split "010" s) ≤ S (length (Py.readlines s)))%nat.
Proof.
  pose proof (split_nonempty "010" s) as Hne.
  destruct (Py.split "010" s) as [|p t] eqn:Es; [done|].
  assert (Hk : (length t < length (Py.split "010" s))%nat)
    by (rewrite Es; simpl; lia).
  apply take_readlines in Hk. apply (f_equal length) in Hk.
  rewrite length_fmap, !length_take, Es in Hk. simpl in *. lia.
Qed.

Lemma concat_with_newlines (ls : list string) :
  ls ≠ [] →
  Py.concat ((λ l, l +:+ Py.newline) <$> ls)
  = Py.join Py.newline ls +:+ Py.newline.
Proof.
  induction ls as [|x [|y ls] IH]; intros Hne; [done|..].
  - simpl. by rewrite str_app_empty_r.
  - cbn [fmap list_fmap Py.concat] in *. rewrite IH by done.
    by rewrite join_cons, !str_app_assoc.
Qed.

(** X15.  The scan and the extraction in a row: for a recorded method
    that ends before the last piece of the file, the text that the
    Extractor takes from the source for its descriptor is the full text
    that the Scanner kept of it, followed by a newline. *)
Theorem scan_then_extract content hs :
  scan content = Ok hs →
  Forall (λ h, end_ h + 1 < Z.of_nat (length (lines_of content)) →
               method_text (Py.readlines content) (descriptor_of h)
               = full_text h +:+ Py.newline) hs.
Proof.
  intros [Hall _]%scan_trace_end. apply (Forall_impl _ _ _ Hall).
  intros h (s & e & Hs & He & Hse & Hl & Hft & _) Hlast.
  unfold method_text, descriptor_of. simpl. rewrite Hs, He.
  pose proof (readlines_length content) as Hlen. fold (lines_of content) in Hlen.
  rewrite slice_within by lia.
  rewrite take_drop_commute.
  replace (s + (e - s + 1))%nat with (S e) by lia.
  rewrite take_readlines by (fold (lines_of content); lia).
  fold (lines_of content). rewrite <- fmap_drop.
  replace (drop s (take (S e) (lines_of content))) with (lines h).
  - rewrite concat_with_newlines; [by rewrite Hft|].
    rewrite Hl. intros Hnil%(f_equal length).
    rewrite length_take, length_drop in Hnil. simpl in Hnil. lia.
  - rewrite Hl, take_drop_commute. f_equal. f_equal. lia.
Qed.

Lemma scan_then_extract_witness :
  Forall (λ h, end_ h + 1 < Z.of_nat (length (lines_of sample_source)) →
               method_text (Py.readlines sample_source) (descriptor_of h)
               = full_text h +:+ Py.newline) sample_handlers.
Proof. apply (scan_then_extract sample_source). vm_compute. reflexivity. Defined.
End pipeline.

(** ** What the Rewriter leaves in place *)

Section kept.
Import Scanner.
Implicit Types (h : handler) (hs : list handler) (content : string).

Lemma sorted_apart {A} (R : relation A) (l : list A) x y :
  StronglySorted R l → x ∈ l → y ∈ l → x = y ∨ R x y ∨ R y x.
Proof.
  induction 1 as [|z l _ IH Hz]; [by intros ?%elem_of_nil|].
  rewrite Forall_forall in Hz.
  intros [->|Hx]%elem_of_cons [->|Hy]%elem_of_cons; auto.
Qed.

(** X16.  The Rewriter deletes no line of a recorded method named
    [handleStateMessage]: no index of its range lies in a range that the
    Rewriter reads from the Scanner's listing. *)
Theorem exception_kept content hs h i :
  scan content = Ok hs →
  h ∈ hs →
  name h = Listing.exception →
  start h ≤ i ≤ end_ h →
  Rewriter.handlers_to_remove (handler_info hs) = Ok (moved hs) ∧
  i ∉ Rewriter.lines_to_remove (moved hs).
Proof.
  intros Hscan Hin Hname Hi. split.
  - unfold Rewriter.handlers_to_remove, Listing.read.
    pose proof (scan_names_wordy _ _ Hscan) as Hw.
    rewrite readlines_handler_info by done. by rewrite read_lines_entries.
  - apply scan_trace_end in Hscan as [Hall Hsort].
    rewrite elem_of_lines_to_remove. unfold covered, moved.
    rewrite Exists_exists.
    intros (d & (h' & -> & [Hne Hin']%list_elem_of_filter)%list_elem_of_fmap
              & Hr).
    unfold in_range in Hr. simpl in Hr.
    rewrite Forall_forall in Hall.
    destruct (Hall h Hin) as (s & e & ? & ? & ? & _).
    destruct (Hall h' Hin') as (s' & e' & ? & ? & ? & _).
    destruct (sorted_apart _ _ h h' Hsort Hin Hin') as [->|[?|?]];
      [done|lia|lia].
Qed.

Lemma exception_kept_witness :
  Rewriter.handlers_to_remove (handler_info sample_handlers)
  = Ok (moved sample_handlers) ∧
  7 ∉ Rewriter.lines_to_remove (moved sample_handlers).
Proof.
  apply (exception_kept sample_source sample_handlers sample_kept 7).
  - vm_compute. reflexivity.
  - apply (list_elem_of_lookup_2 _ 1%nat). reflexivity.
  - reflexivity.
  - simpl. lia.
Defined.
End kept.

(** ** The span that the Rewriter's pattern replaces *)

Section span.
Implicit Types (r : Re.pattern) (s rest p : string) (ps : list string).

Lemma consume_inv (m : option Re.matched) piece ps rest :
  Re.consume piece m = Some (ps, rest) →
  ∃ ps', ps = piece :: ps' ∧ m = Some (ps', rest).
Proof.
  destruct m as [[ps' rest']|]; [|done]. intros [= <- <-]. by exists ps'.
Qed.

Lemma extend_inv (m : option Re.matched) a ps rest :
  Re.extend a m = Some (ps, rest) →
  ∃ p ps', ps = String a p :: ps' ∧ m = Some (p :: ps', rest).
Proof.
  destruct m as [[[|p ps'] rest']|]; [done| |done].
  intros [= <- <-]. by exists p, ps'.
Qed.

(** A repetition splits the text into what it consumed, characters of
    its class, and the text on which the rest of the pattern went on. *)
Lemma star_split greedy cls k s ps rest :
  Re.star greedy cls k s = Some (ps, rest) →
  ∃ p ps' s', ps = p :: ps' ∧ s = p +:+ s' ∧ all_chars cls p = true ∧
              k s' = Some (ps', rest).
Proof.
  revert ps rest. induction s as [|a s IH]; intros ps rest H; simpl in H.
  - apply consume_inv in H as (ps' & -> & Hk). by exists "", ps', "".
  - assert (Hstop : Re.consume "" (k (String a s)) = Some (ps, rest) →
              ∃ p ps' s', ps = p :: ps' ∧ String a s = p +:+ s'
                          ∧ all_chars cls p = true
                          ∧ k s' = Some (ps', rest)).
    { intros (ps' & -> & Hk)%consume_inv. by exists "", ps', (String a s). }
    destruct (cls a) eqn:Ha; [|by apply Hstop].
    assert (Hext : Re.extend a (Re.star greedy cls k s) = Some (ps, rest) →
              ∃ p ps' s', ps = p :: ps' ∧ String a s = p +:+ s'
                          ∧ all_chars cls p = true
                          ∧ k s' = Some (ps', rest)).
    { intros (p & ps' & -> & Hm)%extend_inv.
      apply IH in Hm as (p' & ps'' & s' & [= <- <-] & -> & Hp & Hk).
      exists (String a p), ps', s'. simpl. by rewrite Ha, Hp. }
    destruct greedy.
    + destruct (Re.extend a _) as [x|] eqn:E.
      * injection H as ->. by apply Hext.
      * by apply Hstop.
    + destruct (Re.consume "" _) as [x|] eqn:E.
      * injection H as ->. by apply Hstop.
      * by apply Hext.
Qed.

(** A lazy repetition stops at the first place where the rest of the
    pattern goes on: it went on at no earlier place. *)
Lemma star_lazy_first cls k s p ps rest :
  Re.star false cls k s = Some (p :: ps, rest) →
  ∀ p1 a p2 s', p = p1 +:+ String a p2 → s = p +:+ s' →
                k (String a p2 +:+ s') = None.
Proof.
  revert p. induction s as [|a0 s IH]; intros p H p1 a p2 s' Hp Hs.
  - subst p. destruct p1; discriminate Hs.
  - simpl in H. destruct (Re.consume "" (k (String a0 s))) as [x|] eqn:E.
    + assert (Some x = Some (p :: ps, rest)) as Hx
        by (by destruct (cls a0)).
      injection Hx as ->.
      apply consume_inv in E as (ps' & [= Hp0 _] & _).
      rewrite Hp0 in Hp. by destruct p1.
    + assert (k (String a0 s) = None) as Hk0
        by (by destruct (k (String a0 s)) as [[? ?]|]).
      destruct (cls a0); [|done].
      apply extend_inv in H as (p' & ps' & [= -> <-] & Hm).
      destruct p1 as [|b p1].
      * change ("" +:+ String a p2) with (String a p2) in Hp.
        injection Hp as <- <-.
        rewrite str_app_cons in Hs. injection Hs as ->.
        by rewrite str_app_cons.
      * rewrite str_app_cons in Hp. injection Hp as <- ->.
        rewrite str_app_cons in Hs. injection Hs as ->.
        by apply (IH _ Hm p1 a p2 s').
Qed.

Lemma alt_split k s alts ps rest :
  Re.alt k s alts = Some (ps, rest) →
  ∃ p ps' s', ps = p :: ps' ∧ s = p +:+ s' ∧ p ∈ alts ∧
              k s' = Some (ps', rest).
Proof.
  induction alts as [|a alts IH]; simpl; [done|].
  assert (Hrec : Re.alt k s alts = Some (ps, rest) →
            ∃ p ps' s', ps = p :: ps' ∧ s = p +:+ s' ∧ p ∈ a :: alts ∧
                        k s' = Some (ps', rest)).
  { intros (p & ps' & s' & ? & ? & ? & ?)%IH.
    exists p, ps', s'. split_and!; try done. by right. }
  destruct (Py.strip_prefix a s) as [s'|] eqn:E; [|done].
  apply strip_prefix_Some in E as ->.
  destruct (Re.consume a (k s')) as [m|] eqn:Ek; [|done].
  intros [= ->]. apply consume_inv in Ek as (ps' & -> & Hk).
  exists a, ps', s'. split_and!; try done. by left.
Qed.

(** A match of two patterns in a row is a match of the first, piece by
    piece, then a match of the second on what the first left. *)
Lemma match_here_app r1 r2 s ps rest :
  Re.match_here (r1 ++ r2) s = Some (ps, rest) →
  ∃ ps1 ps2 mid,
    ps = ps1 ++ ps2 ∧ s = Py.concat ps1 +:+ mid ∧
    Forall2 fits r1 ps1 ∧
    Re.match_here r2 mid = Some (ps2, rest).
Proof.
  revert s ps. induction r1 as [|[l|cls|greedy cls|alts] r1 IH]; intros s ps.
  - intros H. by exists [], ps, s.
  - cbn [app]. rewrite match_here_lit.
    destruct (Py.strip_prefix l s) as [s1|] eqn:E; [|done].
    apply strip_prefix_Some in E as ->.
    intros (ps' & -> & (ps1 & ps2 & mid & -> & -> & ? & H2)%IH)%consume_inv.
    exists (l :: ps1), ps2, mid. simpl. rewrite str_app_assoc.
    split_and!; try done. by constructor.
  - cbn [app]. destruct s as [|a s]; [done|]. rewrite match_here_one.
    destruct (cls a) eqn:Ha; [|done].
    intros (ps' & -> & (ps1 & ps2 & mid & -> & -> & ? & H2)%IH)%consume_inv.
    exists (String a "" :: ps1), ps2, mid.
    split_and!; try done. constructor; [|done]. by exists a.
  - cbn [app]. rewrite match_here_star.
    intros (p & ps' & s' & -> & -> & Hp & H)%star_split.
    apply IH in H as (ps1 & ps2 & mid & -> & -> & ? & H2).
    exists (p :: ps1), ps2, mid. simpl. rewrite str_app_assoc.
    split_and!; try done. by constructor.
  - cbn [app Re.match_here].
    intros (p & ps' & s' & -> & -> & Hp & H)%alt_split.
    apply IH in H as (ps1 & ps2 & mid & -> & -> & ? & H2).
    exists (p :: ps1), ps2, mid. simpl. rewrite str_app_assoc.
    split_and!; try done. by constructor.
Qed.

Lemma app_split_lt s1 t1 s2 t2 :
  s1 +:+ t1 = s2 +:+ t2 → (String.length s2 < String.length s1)%nat →
  ∃ a p, s1 = s2 +:+ String a p ∧ t2 = String a p +:+ t1.
Proof.
  revert s1. induction s2 as [|b s2 IH]; intros s1 Heq Hlt.
  - destruct s1 as [|a p]; [simpl in Hlt; lia|]. by exists a, p.
  - destruct s1 as [|a s1]; [simpl in Hlt; lia|].
    rewrite !str_app_cons in Heq. injection Heq as -> Heq.
    destruct (IH s1 Heq) as (a' & p & -> & ->); [simpl in Hlt; lia|].
    by exists a', p.
Qed.

(** X17.  What the Rewriter's pattern matches is the signature of
    [handleStateMessage] with its four parameters set apart by white
    space, then text without a closing brace, then [switch (state) {]
    and a body that runs to the first line after it made of two spaces
    and a closing brace: the body holds no earlier such line. *)
Theorem replaced_span s ps rest :
  Re.match_here Rewriter.old_handle_state s = Some (ps, rest) →
  spans s rest.
Proof.
  intros H.
  change Rewriter.old_handle_state
    with ([Re.Lit "  private async handleStateMessage("] ++
          signature_rest ++
          [Re.Lit "switch (state) {"] ++
          [Re.Star false (λ _, true); Re.Lit closing_line]) in H.
  apply match_here_app in H as (ps1 & qs1 & s1 & -> & -> & Hf1 & H).
  apply match_here_app in H as (ps2 & qs2 & s2 & -> & -> & Hf2 & H).
  apply match_here_app in H as (ps3 & ps4 & s3 & -> & -> & Hf3 & H).
  apply Forall2_cons_inv_l in Hf1 as (p1 & ? & -> & ->%Forall2_nil_inv_l & ->).
  apply Forall2_cons_inv_l in Hf3 as (p3 & ? & -> & ->%Forall2_nil_inv_l & ->).
  unfold signature_rest in Hf2.
  apply Forall2_cons_inv_l in Hf2 as (w1 & ? & Hw1 & Hf2 & ->).
  apply Forall2_cons_inv_l in Hf2 as (? & ? & Hl1 & Hf2 & ->).
  apply Forall2_cons_inv_l in Hf2 as (w2 & ? & Hw2 & Hf2 & ->).
  apply Forall2_cons_inv_l in Hf2 as (? & ? & Hl2 & Hf2 & ->).
  apply Forall2_cons_inv_l in Hf2 as (w3 & ? & Hw3 & Hf2 & ->).
  apply Forall2_cons_inv_l in Hf2 as (? & ? & Hl3 & Hf2 & ->).
  apply Forall2_cons_inv_l in Hf2 as (w4 & ? & Hw4 & Hf2 & ->).
  apply Forall2_cons_inv_l in Hf2 as (? & ? & Hl4 & Hf2 & ->).
  apply Forall2_cons_inv_l in Hf2 as (w5 & ? & Hw5 & Hf2 & ->).
  apply Forall2_cons_inv_l in Hf2 as (? & ? & Hl5 & Hf2 & ->).
  apply Forall2_cons_inv_l in Hf2
    as (gap & ? & Hgap & ->%Forall2_nil_inv_l & ->).
  simpl in Hw1, Hl1, Hw2, Hl2, Hw3, Hl3, Hw4, Hl4, Hw5, Hl5, Hgap.
  subst.
  rewrite match_here_star in H.
  pose proof (star_split _ _ _ _ _ _ H) as (body & ps5 & s4 & -> & -> & _ & Hk).
  pose proof (star_lazy_first _ _ _ _ _ _ H) as Hfirst.
  rewrite match_here_lit in Hk.
  destruct (Py.strip_prefix closing_line s4) as [s5|] eqn:E; [|done].
  apply strip_prefix_Some in E as ->.
  cbn [Re.match_here Re.consume] in Hk. injection Hk as <- <-.
  exists w1, w2, w3, w4, w5, gap, body. split_and!.
  - simpl. by rewrite !str_app_empty_r, !str_app_assoc.
  - by repeat constructor.
  - done.
  - intros pre post Heq.
    destruct (decide (String.length body ≤ String.length pre)%nat)
      as [|Hlt]; [done|].
    destruct (app_split_lt body (closing_line +:+ s5) pre
                (closing_line +:+ post) Heq) as (a & p2 & Hb & Hpost);
      [lia|].
    specialize (Hfirst pre a p2 (closing_line +:+ s5) Hb eq_refl).
    rewrite <- Hpost, match_here_lit, strip_prefix_app in Hfirst. done.
Qed.

Lemma replaced_span_witness : spans sample_method sample_rest.
Proof.
  apply (replaced_span sample_method sample_pieces sample_rest).
  vm_compute. reflexivity.
Defined.
End span.

Section padding.

Lemma drop_leading_all cls s :
  all_chars cls s = true → Py.drop_leading cls s = "".
Proof.
  induction s as [|a s IH]; [done|]. simpl.
  intros [Ha Hs]%andb_true_iff. rewrite Ha. by apply IH.
Qed.

Lemma drop_leading_app cls l s :
  all_chars cls l = true →
  Py.drop_leading cls (l +:+ s) = Py.drop_leading cls s.
Proof.
  induction l as [|a l IH]; [done|]. rewrite str_app_cons. simpl.
  intros [Ha Hl]%andb_true_iff. rewrite Ha. by apply IH.
Qed.

Lemma drop_both_app cls s r :
  all_chars cls r = true →
  Py.drop_trailing cls (Py.drop_leading cls (s +:+ r))
  = Py.drop_trailing cls (Py.drop_leading cls s).
Proof.
  intros Hr. induction s as [|a s IH].
  - rewrite str_app_empty_l. by rewrite drop_leading_all.
  - rewrite str_app_cons. cbn [Py.drop_leading].
    destruct (cls a); [done|].
    rewrite <- str_app_cons. by apply drop_trailing_app.
Qed.

(** [int] reads a text as it reads the text between pads of white
    space. *)
Lemma int_padded l s r :
  all_chars Py.is_int_space l = true →
  all_chars Py.is_int_space r = true →
  Py.int (l +:+ s +:+ r) = Py.int s.
Proof.
  intros Hl Hr. unfold Py.int.
  by rewrite drop_leading_app, drop_both_app.
Qed.


End padding.
